(** * AINA RAG service: glossary matching engine

    A shallow embedding of the matching engine of [rag_service]:

    - [build_dynamic_index.py]: [prepare_glossary_for_vectorization],
      [build_index_from_data];
    - [build_index.py]: the row loop of [build_index];
    - [main.py]: [build_variants_lookup], [search], [detect_candidates],
      [vectorize].

    Python dictionaries used as maps are [gmap string _], the set of claimed
    token positions is a [gset nat], lists are lists.  Module-level globals
    are a record threaded through the handlers; an endpoint that raises
    [HTTPException] returns [Raise].  The embedding model, the lemmatizer and
    the FAISS index are opaque collaborators: their results are arguments. *)

From Stdlib Require Import ZArith QArith List Ascii String Lia.
From stdpp Require Import base gmap strings list sorting.

Open Scope string_scope.
Open Scope list_scope.

(** ** Python strings *)

(** [str.lower] and [str.strip] are Unicode aware in Python.  The development
    is stated over any pair of functions with the one law used below
    (stripping twice strips once); [ascii_text] further down is the instance
    used to run the examples. *)
Class PyText := {
  str_lower : string -> string;
  str_strip : string -> string;
  str_strip_idem : forall s, str_strip (str_strip s) = str_strip s
}.

(** [sep.join(parts)] *)
Fixpoint join (sep : string) (parts : list string) : string :=
  match parts with
  | [] => ""
  | [x] => x
  | x :: rest => x +:+ sep +:+ join sep rest
  end.

(** [s.split(sep)] for a one-character separator: never returns the empty
    list, [''.split(',') == ['']]. *)
Fixpoint split_on (sep : ascii) (s : string) : list string :=
  match s with
  | EmptyString => [""]
  | String c s' =>
      if Ascii.eqb c sep then "" :: split_on sep s'
      else match split_on sep s' with
           | h :: t => String c h :: t
           | [] => [String c ""]
           end
  end.

(** [s.split(',')] *)
Definition split_comma (s : string) : list string := split_on ","%char s.

(** Truth value of a Python [str]: non-empty. *)
Definition truthy (s : string) : bool := negb (String.eqb s "").

Lemma truthy_true s : truthy s = true <-> s <> "".
Proof.
  unfold truthy. rewrite negb_true_iff. split.
  - intros E ->. by rewrite String.eqb_refl in E.
  - intros N. apply String.eqb_neq. exact N.
Qed.

Lemma truthy_false s : truthy s = false <-> s = "".
Proof.
  unfold truthy. rewrite negb_false_iff. apply String.eqb_eq.
Qed.

(** *** The ASCII instance *)

Module AsciiText.

Definition is_upper (c : ascii) : bool :=
  let n := nat_of_ascii c in (65 <=? n)%nat && (n <=? 90)%nat.

Definition lower_char (c : ascii) : ascii :=
  if is_upper c then ascii_of_nat (nat_of_ascii c + 32) else c.

Fixpoint lower (s : string) : string :=
  match s with
  | EmptyString => EmptyString
  | String c s' => String (lower_char c) (lower s')
  end.

(** [str.isspace] on the ASCII range: TAB..CR, FS..US and the blank. *)
Definition is_space (c : ascii) : bool :=
  let n := nat_of_ascii c in
  (9 <=? n)%nat && (n <=? 13)%nat || (28 <=? n)%nat && (n <=? 32)%nat.

Fixpoint lstrip (s : string) : string :=
  match s with
  | EmptyString => EmptyString
  | String c s' => if is_space c then lstrip s' else s
  end.

Fixpoint rstrip (s : string) : string :=
  match s with
  | EmptyString => EmptyString
  | String c s' =>
      match rstrip s' with
      | EmptyString => if is_space c then EmptyString else String c EmptyString
      | r => String c r
      end
  end.

Definition strip (s : string) : string := rstrip (lstrip s).

(** A string is headed when it is empty or starts with a non-blank. *)
Definition headed (s : string) : Prop :=
  match s with
  | EmptyString => True
  | String c _ => is_space c = false
  end.

Lemma lstrip_headed s : headed (lstrip s).
Proof.
  induction s as [|c s IH]; simpl; [exact I|].
  destruct (is_space c) eqn:E; [exact IH|exact E].
Qed.

Lemma lstrip_of_headed s : headed s -> lstrip s = s.
Proof. destruct s as [|c s]; simpl; [done|]. by intros ->. Qed.

Lemma rstrip_headed s : headed s -> headed (rstrip s).
Proof.
  destruct s as [|c s]; simpl; [done|]. intros E.
  destruct (rstrip s); simpl; [by rewrite E|exact E].
Qed.

Lemma rstrip_idem s : rstrip (rstrip s) = rstrip s.
Proof.
  induction s as [|c s IH]; simpl; [done|].
  destruct (rstrip s) as [|d r] eqn:R.
  - destruct (is_space c) eqn:E; simpl; [done|by rewrite E].
  - change (rstrip (String c (String d r)) = String c (String d r)).
    cbn [rstrip]. cbn [rstrip] in IH. by rewrite IH.
Qed.

Lemma strip_idem s : strip (strip s) = strip s.
Proof.
  unfold strip.
  rewrite (lstrip_of_headed (rstrip (lstrip s))).
  - apply rstrip_idem.
  - apply rstrip_headed, lstrip_headed.
Qed.

End AsciiText.

Definition ascii_text : PyText := {|
  str_lower := AsciiText.lower;
  str_strip := AsciiText.strip;
  str_strip_idem := AsciiText.strip_idem
|}.

(** ** Data model *)

(** A structured submission ([GlossaryTermInput.model_dump()]).  The
    normalizer also accepts the variants as one comma-separated string. *)
Inductive raw_variants :=
| VList (l : list string)
| VStr (s : string).

Record RawEntry := {
  raw_id : string;
  raw_terme_recomanat : string;
  raw_variants_no_normatives : raw_variants;
  raw_context_d_us : string;
  raw_categoria : string;
  raw_ambit : string;
  raw_notes_linguistiques : string;
  raw_font : string;
  raw_exemples_correctes : list string;
  raw_exemples_incorrectes : list string
}.

(** A cell of the CSV data frame: a string, or pandas' NaN for an empty
    cell.  [str] of NaN is ['nan']. *)
Inductive cell :=
| CStr (s : string)
| CNaN.

Definition py_str (c : cell) : string :=
  match c with
  | CStr s => s
  | CNaN => "nan"
  end.

Record CsvRow := {
  col_ID : cell;
  col_terme_recomanat : cell;
  col_terme_no_normatiu : cell;
  col_context_d_us : cell;
  col_categoria : cell;
  col_ambit : cell;
  col_comentari : cell;
  col_font : cell;
  col_exemple_1 : cell;
  col_exemple_2 : cell;
  col_exemple_3 : cell;
  col_exemple_incorrecte_1 : cell;
  col_exemple_incorrecte_2 : cell
}.

(** The canonical entry (the metadata dict pickled next to the index). *)
Record Entry := {
  entry_id : string;
  terme_recomanat : string;
  variants_no_normatives : list string;
  context_d_us : string;
  categoria : string;
  ambit : string;
  comentari : string;
  font : string;
  exemple_1 : string;
  exemple_2 : string;
  exemple_3 : string;
  exemple_incorrecte_1 : string;
  exemple_incorrecte_2 : string
}.

(** The value stored in the variants lookup. *)
Record LookupRecord := {
  lr_id : string;
  lr_terme_recomanat : string;
  lr_categoria : string;
  lr_context : string;
  lr_variant_original : string
}.

(** ** Glossary normalizer *)

Section Normalizer.
Context {text : PyText}.

(** [variants = entry.get('variants_no_normatives', [])]; only a [str] is
    split, trimmed and filtered, a list is kept as it is. *)
Definition normalize_variants (v : raw_variants) : list string :=
  match v with
  | VStr s =>
      map str_strip (filter (fun v => truthy (str_strip v) = true) (split_comma s))
  | VList l => l
  end.

(** [metadata[f"exemple_{i+1}"] = str(ex).strip()] for the retained prefix;
    the key keeps its initial [""] when the list is shorter. *)
Definition example_at (l : list string) (i : nat) : string :=
  match l !! i with
  | Some ex => str_strip ex
  | None => ""
  end.

Definition metadata_of (entry : RawEntry) : Entry := {|
  entry_id := raw_id entry;
  terme_recomanat := str_strip (raw_terme_recomanat entry);
  variants_no_normatives := normalize_variants (raw_variants_no_normatives entry);
  context_d_us := str_strip (raw_context_d_us entry);
  categoria := str_strip (raw_categoria entry);
  ambit := str_strip (raw_ambit entry);
  comentari := str_strip (raw_notes_linguistiques entry);
  font := str_strip (raw_font entry);
  exemple_1 := example_at (take 3 (raw_exemples_correctes entry)) 0;
  exemple_2 := example_at (take 3 (raw_exemples_correctes entry)) 1;
  exemple_3 := example_at (take 3 (raw_exemples_correctes entry)) 2;
  exemple_incorrecte_1 := example_at (take 2 (raw_exemples_incorrectes entry)) 0;
  exemple_incorrecte_2 := example_at (take 2 (raw_exemples_incorrectes entry)) 1
|}.

(** [context and context != 'nan'] *)
Definition usable_context (context : string) : bool :=
  truthy context && negb (String.eqb context "nan").

(** The [text_parts] list of one entry, in the order it is extended. *)
Definition text_parts_of (entry : RawEntry) : list string :=
  let terme := str_strip (raw_terme_recomanat entry) in
  let variants := normalize_variants (raw_variants_no_normatives entry) in
  let context := str_strip (raw_context_d_us entry) in
  [terme]
    ++ variants
    ++ map str_strip (filter (fun ex => truthy ex = true) (raw_exemples_incorrectes entry))
    ++ (if usable_context context then [context] else []).

(** One iteration of the loop of [prepare_glossary_for_vectorization]. *)
Definition prepare_step (acc : list Entry * list string) (entry : RawEntry)
  : list Entry * list string :=
  let '(glossari, texts_to_embed) := acc in
  if truthy (str_strip (raw_terme_recomanat entry)) then
    (glossari ++ [metadata_of entry],
     texts_to_embed ++ [join " " (text_parts_of entry)])
  else acc.

Definition prepare_glossary_for_vectorization (glossary_data : list RawEntry)
  : list Entry * list string :=
  fold_left prepare_step glossary_data ([], []).

(** *** The CSV builder ([build_index.py]) *)

Definition csv_variants (terme_incorrecte : string) : list string :=
  if truthy terme_incorrecte then map str_strip (split_comma terme_incorrecte)
  else [].

Definition csv_entrada (row : CsvRow) : Entry := {|
  entry_id := str_strip (py_str (col_ID row));
  terme_recomanat := str_strip (py_str (col_terme_recomanat row));
  variants_no_normatives := csv_variants (str_strip (py_str (col_terme_no_normatiu row)));
  context_d_us := str_strip (py_str (col_context_d_us row));
  categoria := str_strip (py_str (col_categoria row));
  ambit := str_strip (py_str (col_ambit row));
  comentari := str_strip (py_str (col_comentari row));
  font := str_strip (py_str (col_font row));
  exemple_1 := str_strip (py_str (col_exemple_1 row));
  exemple_2 := str_strip (py_str (col_exemple_2 row));
  exemple_3 := str_strip (py_str (col_exemple_3 row));
  exemple_incorrecte_1 := str_strip (py_str (col_exemple_incorrecte_1 row));
  exemple_incorrecte_2 := str_strip (py_str (col_exemple_incorrecte_2 row))
|}.

(** [text_combinat]: term, then context, then the raw variants cell. *)
Definition csv_text (row : CsvRow) : string :=
  let terme := str_strip (py_str (col_terme_recomanat row)) in
  let terme_incorrecte := str_strip (py_str (col_terme_no_normatiu row)) in
  let context := str_strip (py_str (col_context_d_us row)) in
  terme
    +:+ (if usable_context context then " " +:+ context else "")
    +:+ (if usable_context terme_incorrecte then " " +:+ terme_incorrecte else "").

Definition build_index_step (acc : list Entry * list string) (row : CsvRow)
  : list Entry * list string :=
  let '(glossari, texts_to_embed) := acc in
  if truthy (str_strip (py_str (col_terme_recomanat row))) then
    (glossari ++ [csv_entrada row], texts_to_embed ++ [csv_text row])
  else acc.

(** The row loop of [build_index]. *)
Definition build_index_rows (df : list CsvRow) : list Entry * list string :=
  fold_left build_index_step df ([], []).

End Normalizer.

(** ** Variant lookup builder *)

Section VariantLookup.
Context {text : PyText}.

Definition lookup_record (entry : Entry) (variant : string) : LookupRecord := {|
  lr_id := entry_id entry;
  lr_terme_recomanat := terme_recomanat entry;
  lr_categoria := categoria entry;
  lr_context := context_d_us entry;
  lr_variant_original := variant
|}.

(** The body of [for variant in variants]; every list item is a [str]. *)
Definition add_variant (entry : Entry) (lookup : gmap string LookupRecord)
    (variant : string) : gmap string LookupRecord :=
  if truthy variant then
    <[str_strip (str_lower variant) := lookup_record entry variant]> lookup
  else lookup.

Definition add_entry (lookup : gmap string LookupRecord) (entry : Entry)
  : gmap string LookupRecord :=
  fold_left (add_variant entry) (variants_no_normatives entry) lookup.

Definition build_variants_lookup (glossari_data : list Entry)
  : gmap string LookupRecord :=
  fold_left add_entry glossari_data ∅.

End VariantLookup.

(** ** Candidate detector *)

(** What the lemmatizer yields per token ([t.text], [t.lemma_], [t.pos_],
    [t.is_punct], [t.is_space]). *)
Record Token := {
  tok_text : string;
  tok_lemma : string;
  tok_pos : string;
  tok_is_punct : bool;
  tok_is_space : bool
}.

Record DetectedCandidate := {
  dc_term : string;
  dc_lemma : string;
  dc_position : nat;
  dc_context : string;
  dc_pos_tag : string;
  dc_glossary_id : string;
  dc_terme_recomanat : string;
  dc_categoria : string;
  dc_source : string
}.

(** Python slice bounds: a negative bound counts from the end, and both are
    clamped into [0, len]. *)
Definition clamp_index (len i : Z) : Z :=
  Z.min len (Z.max 0 (if (i <? 0)%Z then (i + len)%Z else i)).

Definition py_slice {A} (l : list A) (start stop : Z) : list A :=
  let len := Z.of_nat (length l) in
  let a := clamp_index len start in
  let b := clamp_index len stop in
  take (Z.to_nat (b - a)) (drop (Z.to_nat a) l).

(** [" ".join([t.text for t in doc[start_ctx:end_ctx]])] around a window of
    [width] tokens starting at [i]. *)
Definition context_text (doc : list Token) (i width : nat) (context_window : Z)
  : string :=
  let start_ctx := Z.max 0 (Z.of_nat i - context_window) in
  let end_ctx :=
    Z.min (Z.of_nat (length doc)) (Z.of_nat i + Z.of_nat width + context_window) in
  join " " (map tok_text (py_slice doc start_ctx end_ctx)).

(** [any(j in detected_positions for j in range(i, i + ngram_size))] *)
Definition window_claimed (detected : gset nat) (i n : nat) : bool :=
  existsb (fun j => bool_decide (j ∈ detected)) (seq i n).

(** [for j in range(i, i + ngram_size): detected_positions.add(j)] *)
Definition claim_window (detected : gset nat) (i n : nat) : gset nat :=
  fold_left (fun d j => {[j]} ∪ d) (seq i n) detected.

(** [" ".join([t.text for t in doc[i:i + ngram_size]])] *)
Definition ngram_text (doc : list Token) (i n : nat) : string :=
  join " " (map tok_text (take n (drop i doc))).

(** [enumerate(doc)] *)
Definition enumerate {A} (l : list A) : list (nat * A) :=
  combine (seq 0 (length l)) l.

Section Detector.
Context {text : PyText}.

Definition mwe_candidate (entry : LookupRecord) (context_window : Z)
    (doc : list Token) (i n : nat) : DetectedCandidate := {|
  dc_term := ngram_text doc i n;
  dc_lemma := str_lower (ngram_text doc i n);
  dc_position := i;
  dc_context := context_text doc i n context_window;
  dc_pos_tag := "MWE";
  dc_glossary_id := lr_id entry;
  dc_terme_recomanat := lr_terme_recomanat entry;
  dc_categoria := lr_categoria entry;
  dc_source := "nlp"
|}.

(** The body of the inner loop of the first pass, at window start [i]. *)
Definition ngram_step (lookup : gmap string LookupRecord) (context_window : Z)
    (doc : list Token) (n : nat) (st : gset nat * list DetectedCandidate)
    (i : nat) : gset nat * list DetectedCandidate :=
  let '(detected, candidates) := st in
  if window_claimed detected i n then st
  else
    match lookup !! str_lower (ngram_text doc i n) with
    | Some entry =>
        (claim_window detected i n,
         candidates ++ [mwe_candidate entry context_window doc i n])
    | None => st
    end.

(** [for i in range(len(doc) - ngram_size + 1)] *)
Definition ngram_pass (lookup : gmap string LookupRecord) (context_window : Z)
    (doc : list Token) (st : gset nat * list DetectedCandidate) (n : nat)
  : gset nat * list DetectedCandidate :=
  fold_left (ngram_step lookup context_window doc n)
            (seq 0 (length doc + 1 - n)) st.

(** [for ngram_size in range(4, 1, -1)] *)
Definition multiword_pass (lookup : gmap string LookupRecord) (context_window : Z)
    (doc : list Token) (st : gset nat * list DetectedCandidate)
  : gset nat * list DetectedCandidate :=
  fold_left (ngram_pass lookup context_window doc) [4; 3; 2] st.

(** Lemma first, then the raw token; the matched form is kept. *)
Definition single_match (lookup : gmap string LookupRecord) (token : Token)
  : option (LookupRecord * string) :=
  let lemma := str_lower (tok_lemma token) in
  let token_lower := str_lower (tok_text token) in
  match lookup !! lemma with
  | Some match_entry => Some (match_entry, lemma)
  | None =>
      match lookup !! token_lower with
      | Some match_entry => Some (match_entry, token_lower)
      | None => None
      end
  end.

Definition single_candidate (match_entry : LookupRecord) (matched_form : string)
    (context_window : Z) (doc : list Token) (i : nat) (token : Token)
  : DetectedCandidate := {|
  dc_term := tok_text token;
  dc_lemma := matched_form;
  dc_position := i;
  dc_context := context_text doc i 1 context_window;
  dc_pos_tag := tok_pos token;
  dc_glossary_id := lr_id match_entry;
  dc_terme_recomanat := lr_terme_recomanat match_entry;
  dc_categoria := lr_categoria match_entry;
  dc_source := "nlp"
|}.

(** The body of the second pass.  The lookup record is a dict with five
    keys, hence true; the category/part-of-speech test ends in [pass]. *)
Definition token_step (lookup : gmap string LookupRecord) (context_window : Z)
    (doc : list Token) (st : gset nat * list DetectedCandidate)
    (it : nat * Token) : gset nat * list DetectedCandidate :=
  let '(detected, candidates) := st in
  let '(i, token) := it in
  if bool_decide (i ∈ detected) then st
  else if tok_is_punct token || tok_is_space token then st
  else
    match single_match lookup token with
    | Some (match_entry, matched_form) =>
        ({[i]} ∪ detected,
         candidates
           ++ [single_candidate match_entry matched_form context_window doc i token])
    | None => st
    end.

Definition token_pass (lookup : gmap string LookupRecord) (context_window : Z)
    (doc : list Token) (st : gset nat * list DetectedCandidate)
  : gset nat * list DetectedCandidate :=
  fold_left (token_step lookup context_window doc) (enumerate doc) st.

End Detector.

(** [candidates.sort(key=lambda x: x.position)]: the sort is stable, so its
    result is the one of inserting the items in turn, each behind those
    whose position is not larger. *)
Fixpoint insert_by_position (c : DetectedCandidate) (l : list DetectedCandidate)
  : list DetectedCandidate :=
  match l with
  | [] => [c]
  | d :: l' =>
      if (dc_position c <? dc_position d)%nat then c :: l
      else d :: insert_by_position c l'
  end.

Definition sort_by_position (l : list DetectedCandidate) : list DetectedCandidate :=
  fold_left (fun sorted c => insert_by_position c sorted) l [].

Section Scan.
Context {text : PyText}.

(** The body of the [try] block of [detect_candidates], from the tokens on. *)
Definition scan (lookup : gmap string LookupRecord) (context_window : Z)
    (doc : list Token) : list DetectedCandidate :=
  let st1 := multiword_pass lookup context_window doc (∅, []) in
  let st2 := token_pass lookup context_window doc st1 in
  sort_by_position (snd st2).

End Scan.

(** ** The service: globals, endpoints, rebuild *)

(** How a handler ends: it returns, raises [HTTPException(status_code,
    detail)], or lets another exception escape. *)
Inductive outcome (A : Type) :=
| Return (a : A)
| Raise (status_code : Z) (detail : string)
| Fault (msg : string).
Arguments Return {A} a.
Arguments Raise {A} status_code detail.
Arguments Fault {A} msg.

(** The embedding space: opaque vectors, and [astype(float32)] followed by
    [faiss.normalize_L2] on a batch. *)
Class Vectors := {
  Vec : Type;
  normalize_L2 : list Vec -> list Vec
}.

Record MatchResult := {
  mr_id : string;
  mr_terme_recomanat : string;
  mr_similitud : Q;
  mr_context : string;
  mr_variants : list string;
  mr_categoria : string;
  mr_ambit : string;
  mr_comentari : string;
  mr_font : string;
  mr_exemple_1 : string;
  mr_exemple_2 : string;
  mr_exemple_3 : string;
  mr_exemple_incorrecte_1 : string;
  mr_exemple_incorrecte_2 : string
}.

Record SearchResult := {
  sr_original : string;
  sr_matches : list MatchResult
}.

Record SearchRequest := {
  sq_candidates : list string;
  sq_k : nat;
  sq_threshold : Q
}.

Record DetectCandidatesRequest := {
  dq_text : string;
  dq_context_window : Z
}.

Record DetectCandidatesResult := {
  dr_success : bool;
  dr_candidates : list DetectedCandidate;
  dr_nlp_model_used : string;
  dr_error : option string
}.

(** The spaCy pipeline: its name ([meta.get('name', 'unknown')]) and the
    call [nlp_model(text)], which yields the tokens or raises ([inl] holds
    [str(e)]). *)
Record Language := {
  nlp_name : string;
  nlp_call : string -> string + list Token
}.

(** [MatchResult(...)] built from a canonical entry and a score.  Scores are
    finite floats, hence rationals, and are compared exactly. *)
Definition match_result (entry : Entry) (score : Q) : MatchResult := {|
  mr_id := entry_id entry;
  mr_terme_recomanat := terme_recomanat entry;
  mr_similitud := score;
  mr_context := context_d_us entry;
  mr_variants := variants_no_normatives entry;
  mr_categoria := categoria entry;
  mr_ambit := ambit entry;
  mr_comentari := comentari entry;
  mr_font := font entry;
  mr_exemple_1 := exemple_1 entry;
  mr_exemple_2 := exemple_2 entry;
  mr_exemple_3 := exemple_3 entry;
  mr_exemple_incorrecte_1 := exemple_incorrecte_1 entry;
  mr_exemple_incorrecte_2 := exemple_incorrecte_2 entry
|}.

(** The body of [for j in range(request.k)] for one candidate, whose row of
    positions is [idx] and row of scores is [score].  [None] is the
    [IndexError] of [glossari[idx]]. *)
Definition neighbor_step (glossari : list Entry) (threshold : Q)
    (idx : nat -> Z) (score : nat -> Q)
    (acc : option (list MatchResult)) (j : nat) : option (list MatchResult) :=
  match acc with
  | None => None
  | Some matches =>
      if (idx j <? 0)%Z then Some matches
      else if Qle_bool threshold (score j) then
        match glossari !! Z.to_nat (idx j) with
        | Some entry => Some (matches ++ [match_result entry (score j)])
        | None => None
        end
      else Some matches
  end.

Definition neighbor_matches (glossari : list Entry) (k : nat) (threshold : Q)
    (idx : nat -> Z) (score : nat -> Q) : option (list MatchResult) :=
  fold_left (neighbor_step glossari threshold idx score) (seq 0 k) (Some []).

(** The body of [for i, candidate in enumerate(request.candidates)]. *)
Definition candidate_step (glossari : list Entry) (k : nat) (threshold : Q)
    (distances : nat -> nat -> Q) (indices : nat -> nat -> Z)
    (acc : option (list SearchResult)) (it : nat * string)
  : option (list SearchResult) :=
  let '(i, candidate) := it in
  match acc with
  | None => None
  | Some results =>
      match neighbor_matches glossari k threshold (indices i) (distances i) with
      | Some matches =>
          Some (results ++ [{| sr_original := candidate; sr_matches := matches |}])
      | None => None
      end
  end.

Section Service.
Context {vectors : Vectors}.

Record SentenceTransformer := {
  encode : list string -> list Vec
}.

(** [index.search(vectors, k)] returns the score and position matrices. *)
Record FaissIndex := {
  index_search : list Vec -> nat -> (nat -> nat -> Q) * (nat -> nat -> Z)
}.

(** The module-level globals of [main.py]. *)
Record Globals := {
  model : option SentenceTransformer;
  index : option FaissIndex;
  glossari : option (list Entry);
  nlp_model : option Language;
  variants_lookup : option (gmap string LookupRecord)
}.

Definition search (g : Globals) (request : SearchRequest)
  : outcome (list SearchResult) :=
  match model g with
  | None =>
      Raise 503 "Model no carregat. El servei no està inicialitzat correctament."
  | Some m =>
      match index g, glossari g with
      | Some ix, Some (e :: es) =>
          let vectors := normalize_L2 (encode m (sq_candidates request)) in
          let '(distances, indices) := index_search ix vectors (sq_k request) in
          match
            fold_left
              (candidate_step (e :: es) (sq_k request) (sq_threshold request)
                              distances indices)
              (enumerate (sq_candidates request)) (Some [])
          with
          | Some results => Return results
          | None => Fault "IndexError: list index out of range"
          end
      | _, _ =>
          Raise 503
            "Índex no disponible. Utilitzeu l'endpoint /vectorize per crear l'índex primer."
      end
  end.

Context {text : PyText}.

Definition detect_candidates (g : Globals) (request : DetectCandidatesRequest)
  : outcome DetectCandidatesResult :=
  match nlp_model g with
  | None =>
      Raise 503
        "Model NLP no carregat. Instal·leu: python -m spacy download ca_core_news_trf"
  | Some nlp =>
      match variants_lookup g with
      | Some lookup =>
          if bool_decide (size lookup = 0) then
            Raise 503
              "Lookup de variants no disponible. Vectoritzeu el glossari primer."
          else
            match nlp_call nlp (dq_text request) with
            | inr doc =>
                Return {| dr_success := true;
                          dr_candidates :=
                            scan lookup (dq_context_window request) doc;
                          dr_nlp_model_used := nlp_name nlp;
                          dr_error := None |}
            | inl e =>
                Return {| dr_success := false;
                          dr_candidates := [];
                          dr_nlp_model_used := "error";
                          dr_error := Some e |}
            end
      | None =>
          Raise 503
            "Lookup de variants no disponible. Vectoritzeu el glossari primer."
      end
  end.

End Service.

(** ** Rebuild: [build_index_from_data] and [/vectorize] *)

Record GlossaryTermInput := {
  gti_id : string;
  gti_terme_recomanat : string;
  gti_variants_no_normatives : list string;
  gti_context_d_us : string;
  gti_categoria : string;
  gti_ambit : string;
  gti_notes_linguistiques : string;
  gti_font : string;
  gti_exemples_correctes : list string;
  gti_exemples_incorrectes : list string
}.

(** [term.model_dump()] *)
Definition model_dump (term : GlossaryTermInput) : RawEntry := {|
  raw_id := gti_id term;
  raw_terme_recomanat := gti_terme_recomanat term;
  raw_variants_no_normatives := VList (gti_variants_no_normatives term);
  raw_context_d_us := gti_context_d_us term;
  raw_categoria := gti_categoria term;
  raw_ambit := gti_ambit term;
  raw_notes_linguistiques := gti_notes_linguistiques term;
  raw_font := gti_font term;
  raw_exemples_correctes := gti_exemples_correctes term;
  raw_exemples_incorrectes := gti_exemples_incorrectes term
|}.

Record BuildReport := {
  glossaryEntries : nat;
  vectorizedEntries : nat;
  embeddingModel : string;
  vectorDimensions : nat;
  indexType : string;
  processingTime : string;
  indexSize : string
}.

(** The dict returned by [build_index_from_data]: the success dict, or
    [{"success": False, "error": msg}]. *)
Inductive BuildResult :=
| BuildSuccess (report : BuildReport)
| BuildFailure (error : string).

(** [result.get("success", False)] *)
Definition result_success (r : BuildResult) : bool :=
  match r with
  | BuildSuccess _ => true
  | BuildFailure _ => false
  end.

(** [result.get("error", ...)] of a failure dict. *)
Definition result_error (r : BuildResult) : option string :=
  match r with
  | BuildSuccess _ => None
  | BuildFailure e => Some e
  end.

Record VectorizeResult := {
  vr_success : bool;
  vr_report : BuildReport;
  vr_error : option string
}.

(** The external steps of a rebuild that can raise. *)
Inductive io_step :=
| LoadAndEncode   (* SentenceTransformer(MODEL_NAME), encode, IndexFlatIP, add *)
| WriteIndex      (* faiss.write_index(index, INDEX_FILE) *)
| DumpMetadata    (* pickle.dump(glossari, f) *)
| StatIndex       (* os.path.getsize(INDEX_FILE) *)
| ReadIndex       (* faiss.read_index(INDEX_FILE) *)
| LoadMetadata.   (* pickle.load(f) *)

Definition MODEL_NAME : string :=
  "projecte-aina/ST-NLI-ca_paraphrase-multilingual-mpnet-base".

Section Rebuild.
Context {vectors : Vectors} {text : PyText}.

(** The two files under [data/]. *)
Record Disk := {
  index_file : option FaissIndex;
  metadata_file : option (list Entry)
}.

(** The collaborators of one rebuild: which external step raises, with
    which [str(e)]; the index built over the normalized embeddings of the
    texts, with its dimension; the reported time and size strings. *)
Record Env := {
  fault : io_step -> option string;
  embed_and_index : list string -> FaissIndex * nat;
  processing_time : string;
  size_str : string
}.

(** [os.makedirs("data", exist_ok=True)] precedes the [try] and is taken to
    succeed.  Everything else is inside the [try], so each fault ends in the
    failure dict. *)
Definition build_index_from_data (env : Env) (disk : Disk)
    (glossary_data : list RawEntry) : Disk * BuildResult :=
  let '(glossari, texts_to_embed) :=
    prepare_glossary_for_vectorization glossary_data in
  if (length glossari =? 0)%nat then
    (disk, BuildFailure "No valid glossary entries to vectorize")
  else
    match fault env LoadAndEncode with
    | Some e => (disk, BuildFailure e)
    | None =>
        let '(ix, dimension) := embed_and_index env texts_to_embed in
        match fault env WriteIndex with
        | Some e => (disk, BuildFailure e)
        | None =>
            let disk1 := {| index_file := Some ix;
                            metadata_file := metadata_file disk |} in
            match fault env DumpMetadata with
            | Some e => (disk1, BuildFailure e)
            | None =>
                let disk2 := {| index_file := Some ix;
                                metadata_file := Some glossari |} in
                match fault env StatIndex with
                | Some e => (disk2, BuildFailure e)
                | None =>
                    (disk2,
                     BuildSuccess
                       {| glossaryEntries := length glossary_data;
                          vectorizedEntries := length glossari;
                          embeddingModel := MODEL_NAME;
                          vectorDimensions := dimension;
                          indexType := "FAISS FlatIP";
                          processingTime := processing_time env;
                          indexSize := size_str env |})
                end
            end
        end
    end.

(** [faiss.read_index(INDEX_FILE)] and [pickle.load(f)]: [inl] is [str(e)]. *)
Definition read_index (env : Env) (disk : Disk) : string + FaissIndex :=
  match fault env ReadIndex with
  | Some e => inl e
  | None =>
      match index_file disk with
      | Some ix => inr ix
      | None => inl "could not open data/glossari_index.faiss for reading"
      end
  end.

Definition load_metadata (env : Env) (disk : Disk) : string + list Entry :=
  match fault env LoadMetadata with
  | Some e => inl e
  | None =>
      match metadata_file disk with
      | Some g => inr g
      | None => inl "No such file or directory: 'data/glossari_metadata.pkl'"
      end
  end.

Definition set_index (g : Globals) (ix : FaissIndex) : Globals :=
  {| model := model g; index := Some ix; glossari := glossari g;
     nlp_model := nlp_model g; variants_lookup := variants_lookup g |}.

Definition set_glossari (g : Globals) (entries : list Entry) : Globals :=
  {| model := model g; index := index g; glossari := Some entries;
     nlp_model := nlp_model g; variants_lookup := variants_lookup g |}.

Definition set_variants_lookup (g : Globals)
    (lookup : gmap string LookupRecord) : Globals :=
  {| model := model g; index := index g; glossari := glossari g;
     nlp_model := nlp_model g; variants_lookup := Some lookup |}.

(** The [/vectorize] endpoint.  The three globals are assigned one after
    the other; an exception after the first assignment is turned into a 500
    by the [except Exception] clause, with the assignments made so far kept. *)
Definition vectorize (env : Env) (g : Globals) (disk : Disk)
    (glossary : list GlossaryTermInput)
  : Globals * Disk * outcome VectorizeResult :=
  match glossary with
  | [] => (g, disk, Raise 400 "No glossary data provided")
  | _ :: _ =>
      let glossary_dicts := map model_dump glossary in
      let '(disk', result) := build_index_from_data env disk glossary_dicts in
      match result with
      | BuildFailure error_msg =>
          (g, disk', Raise 500 ("Vectorization failed: " +:+ error_msg))
      | BuildSuccess report =>
          match read_index env disk' with
          | inl e => (g, disk', Raise 500 e)
          | inr ix =>
              let g1 := set_index g ix in
              match load_metadata env disk' with
              | inl e => (g1, disk', Raise 500 e)
              | inr entries =>
                  let g2 := set_glossari g1 entries in
                  let g3 := set_variants_lookup g2 (build_variants_lookup entries) in
                  (g3, disk',
                   Return {| vr_success := true;
                             vr_report := report;
                             vr_error := None |})
              end
          end
      end
  end.

End Rebuild.

(** * Properties *)

(** ** Glossary normalizer *)

(** What the specification asks of a normalized variant. *)
Definition trimmed_nonempty {text : PyText} (s : string) : Prop :=
  str_strip s = s /\ s <> "".

(** The incorrect examples a canonical entry retains. *)
Definition retained_incorrect_examples (e : Entry) : list string :=
  filter (fun ex => truthy ex = true)
         [exemple_incorrecte_1 e; exemple_incorrecte_2 e].

(** The embedding text as the specification words it, read off a canonical
    entry: recommended term, variants, incorrect examples, usage context
    unless it is empty or ['nan']. *)
Definition spec_embedding_text (e : Entry) : string :=
  join " "
    ([terme_recomanat e]
       ++ variants_no_normatives e
       ++ retained_incorrect_examples e
       ++ (if usable_context (context_d_us e) then [context_d_us e] else [])).

Section NormalizerFacts.
Context {text : PyText}.

Definition usable_term (entry : RawEntry) : Prop :=
  str_strip (raw_terme_recomanat entry) <> "".

Definition usable_row (row : CsvRow) : Prop :=
  str_strip (py_str (col_terme_recomanat row)) <> "".

Lemma prepare_fold (l : list RawEntry) (g : list Entry) (t : list string) :
  fold_left prepare_step l (g, t)
  = (g ++ map metadata_of (filter usable_term l),
     t ++ map (fun e => join " " (text_parts_of e)) (filter usable_term l)).
Proof.
  revert g t. induction l as [|e l IH]; intros g t; simpl.
  - by rewrite !app_nil_r.
  - destruct (truthy (str_strip (raw_terme_recomanat e))) eqn:E.
    + apply truthy_true in E. rewrite IH, filter_cons_True by exact E.
      simpl. by rewrite <- !app_assoc.
    + apply truthy_false in E. rewrite IH, filter_cons_False; [done|].
      unfold usable_term. rewrite E. by intros N.
Qed.

Lemma prepare_spec (l : list RawEntry) :
  prepare_glossary_for_vectorization l
  = (map metadata_of (filter usable_term l),
     map (fun e => join " " (text_parts_of e)) (filter usable_term l)).
Proof. unfold prepare_glossary_for_vectorization. by rewrite prepare_fold. Qed.

Lemma build_index_fold (l : list CsvRow) (g : list Entry) (t : list string) :
  fold_left build_index_step l (g, t)
  = (g ++ map csv_entrada (filter usable_row l),
     t ++ map csv_text (filter usable_row l)).
Proof.
  revert g t. induction l as [|e l IH]; intros g t; simpl.
  - by rewrite !app_nil_r.
  - destruct (truthy (str_strip (py_str (col_terme_recomanat e)))) eqn:E.
    + apply truthy_true in E. rewrite IH, filter_cons_True by exact E.
      simpl. by rewrite <- !app_assoc.
    + apply truthy_false in E. rewrite IH, filter_cons_False; [done|].
      unfold usable_row. rewrite E. by intros N.
Qed.

Lemma build_index_rows_spec (l : list CsvRow) :
  build_index_rows l
  = (map csv_entrada (filter usable_row l), map csv_text (filter usable_row l)).
Proof. unfold build_index_rows. by rewrite build_index_fold. Qed.

Lemma prepare_terms_nonempty (l : list RawEntry) :
  Forall (fun e => terme_recomanat e <> "")
         (fst (prepare_glossary_for_vectorization l)).
Proof.
  rewrite prepare_spec. simpl. apply Forall_forall. intros e He.
  apply list_elem_of_In, in_map_iff in He as (r & <- & Hr).
  apply list_elem_of_In, list_elem_of_filter in Hr as [Hr _]. exact Hr.
Qed.

Lemma build_index_terms_nonempty (l : list CsvRow) :
  Forall (fun e => terme_recomanat e <> "") (fst (build_index_rows l)).
Proof.
  rewrite build_index_rows_spec. simpl. apply Forall_forall. intros e He.
  apply list_elem_of_In, in_map_iff in He as (r & <- & Hr).
  apply list_elem_of_In, list_elem_of_filter in Hr as [Hr _]. exact Hr.
Qed.

Lemma normalize_variants_str (s : string) :
  Forall trimmed_nonempty (normalize_variants (VStr s)).
Proof.
  simpl. apply Forall_forall. intros v Hv.
  apply list_elem_of_In, in_map_iff in Hv as (x & <- & Hx).
  apply list_elem_of_In, list_elem_of_filter in Hx as [Hx _].
  apply truthy_true in Hx.
  split; [apply str_strip_idem|exact Hx].
Qed.

Lemma csv_variants_trimmed (s : string) :
  Forall (fun v => str_strip v = v) (csv_variants s).
Proof.
  unfold csv_variants. destruct (truthy s); [|constructor].
  apply Forall_forall. intros v Hv.
  apply list_elem_of_In, in_map_iff in Hv as (x & <- & _).
  apply str_strip_idem.
Qed.

End NormalizerFacts.

(** ** Variant lookup builder *)

Section VariantLookupFacts.
Context {text : PyText}.

(** The key a variant is stored under. *)
Definition variant_key (variant : string) : string :=
  str_strip (str_lower variant).

(** The writes [lookup[variant_lower] = {...}] of the two nested loops, in
    the order they happen: entry by entry, variant by variant, empty
    variants left out. *)
Definition variant_writes (glossari_data : list Entry) : list (Entry * string) :=
  flat_map
    (fun entry =>
       map (pair entry)
           (filter (fun v => truthy v = true) (variants_no_normatives entry)))
    glossari_data.

Definition write_record (lookup : gmap string LookupRecord)
    (w : Entry * string) : gmap string LookupRecord :=
  <[variant_key w.2 := lookup_record w.1 w.2]> lookup.

Lemma add_entry_writes (entry : Entry) (vs : list string)
    (lookup : gmap string LookupRecord) :
  fold_left (add_variant entry) vs lookup
  = fold_left write_record
      (map (pair entry) (filter (fun v => truthy v = true) vs)) lookup.
Proof.
  revert lookup. induction vs as [|v vs IH]; intros lookup; simpl; [done|].
  unfold add_variant at 2. destruct (truthy v) eqn:E.
  - rewrite filter_cons_True by exact E. simpl. apply IH.
  - rewrite filter_cons_False by (by rewrite E). apply IH.
Qed.

Lemma build_writes (g : list Entry) (lookup : gmap string LookupRecord) :
  fold_left add_entry g lookup = fold_left write_record (variant_writes g) lookup.
Proof.
  revert lookup. induction g as [|e g IH]; intros lookup; simpl; [done|].
  rewrite fold_left_app, IH. f_equal. apply add_entry_writes.
Qed.

Lemma lookup_writes (ws : list (Entry * string))
    (lookup : gmap string LookupRecord) (k : string) :
  fold_left write_record ws lookup !! k
  = match last (filter (fun w => variant_key w.2 = k) ws) with
    | Some w => Some (lookup_record w.1 w.2)
    | None => lookup !! k
    end.
Proof.
  induction ws as [|w ws IH] using rev_ind; simpl; [done|].
  rewrite fold_left_app, filter_app. simpl. unfold write_record at 1.
  destruct (decide (variant_key w.2 = k)) as [E|N].
  - rewrite filter_cons_True by exact E. rewrite filter_nil, last_snoc.
    rewrite E. apply lookup_insert_eq.
  - rewrite filter_cons_False by exact N. rewrite filter_nil, app_nil_r.
    rewrite lookup_insert_ne by exact N. apply IH.
Qed.

Lemma build_variants_lookup_spec (g : list Entry) (k : string) :
  build_variants_lookup g !! k
  = (fun w => lookup_record w.1 w.2)
      <$> last (filter (fun w => variant_key w.2 = k) (variant_writes g)).
Proof.
  unfold build_variants_lookup. rewrite build_writes, lookup_writes.
  destruct (last _); simpl; [done|apply lookup_empty].
Qed.

Lemma variant_writes_elem (g : list Entry) (e : Entry) (v : string) :
  (e, v) ∈ variant_writes g ->
  e ∈ g /\ v ∈ variants_no_normatives e /\ v <> "".
Proof.
  unfold variant_writes. intros Hin.
  apply list_elem_of_In, in_flat_map in Hin as (e' & He' & Hin).
  apply in_map_iff in Hin as (v' & [= <- <-] & Hv).
  apply list_elem_of_In, list_elem_of_filter in Hv as [Hv1 Hv2].
  apply truthy_true in Hv1. split; [by apply list_elem_of_In|done].
Qed.

Lemma lookup_record_origin (g : list Entry) (k : string) (r : LookupRecord) :
  build_variants_lookup g !! k = Some r ->
  exists e v, e ∈ g /\ v ∈ variants_no_normatives e /\ v <> ""
              /\ k = variant_key v /\ r = lookup_record e v.
Proof.
  rewrite build_variants_lookup_spec. intros Hr.
  destruct (last _) as [[e v]|] eqn:L; [|done].
  simpl in Hr. injection Hr as <-.
  apply last_Some_elem_of, list_elem_of_filter in L as [Hk Hin]. simpl in Hk.
  apply variant_writes_elem in Hin as (He & Hv & Hne).
  exists e, v. by rewrite Hk.
Qed.

Lemma lookup_terms_nonempty (g : list Entry) :
  Forall (fun e => terme_recomanat e <> "") g ->
  map_Forall (fun _ r => lr_terme_recomanat r <> "") (build_variants_lookup g).
Proof.
  intros Hg k r Hr.
  apply lookup_record_origin in Hr as (e & v & He & _ & _ & _ & ->).
  simpl. rewrite Forall_forall in Hg. by apply Hg.
Qed.

Lemma no_variants_empty_lookup (g : list Entry) :
  Forall (fun e => variants_no_normatives e = []) g ->
  build_variants_lookup g = ∅.
Proof.
  intros Hg. apply map_eq. intros k. rewrite build_variants_lookup_spec.
  replace (variant_writes g) with (@nil (Entry * string)); [by rewrite lookup_empty|].
  induction Hg as [|e g He _ IH]; simpl; [done|]. by rewrite He, <- IH.
Qed.

End VariantLookupFacts.

(** ** Candidate detector: the multi-word pass *)

(** A window of token positions: its start and its size. *)
Definition in_window (w : nat * nat) (j : nat) : Prop :=
  w.1 <= j < w.1 + w.2.

Definition windows_disjoint (w1 w2 : nat * nat) : Prop :=
  w1.1 + w1.2 <= w2.1 \/ w2.1 + w2.2 <= w1.1.

Lemma claim_window_elem (detected : gset nat) (i n j : nat) :
  j ∈ claim_window detected i n <-> j ∈ detected \/ i <= j < i + n.
Proof.
  unfold claim_window. revert detected i.
  induction n as [|n IH]; intros detected i; simpl.
  - split; [by left|intros [?|?]; [done|lia]].
  - rewrite IH. set_unfold. split.
    + intros [[->|?]|?]; [right; lia|by left|right; lia].
    + intros [?|?]; [by left; right|].
      destruct (decide (j = i)) as [->|]; [by left; left|right; lia].
Qed.

Lemma window_claimed_true (detected : gset nat) (i n : nat) :
  window_claimed detected i n = true
  <-> exists j, i <= j < i + n /\ j ∈ detected.
Proof.
  unfold window_claimed. rewrite existsb_exists. split.
  - intros (j & Hj & Hd). apply in_seq in Hj. apply bool_decide_eq_true in Hd.
    exists j. split; [lia|done].
  - intros (j & Hj & Hd). exists j. split; [apply in_seq; lia|].
    by apply bool_decide_eq_true.
Qed.

Lemma window_claimed_false (detected : gset nat) (i n : nat) :
  window_claimed detected i n = false
  <-> forall j, i <= j < i + n -> j ∉ detected.
Proof.
  rewrite <- not_true_iff_false, window_claimed_true. split.
  - intros N j Hj Hd. apply N. by exists j.
  - intros N (j & Hj & Hd). by apply (N j).
Qed.

Section MultiwordFacts.
Context {text : PyText}.
Variable lookup : gmap string LookupRecord.
Variable context_window : Z.
Variable doc : list Token.

(** The window [w] hit the lookup and [c] is the candidate emitted for it. *)
Definition emitted (w : nat * nat) (c : DetectedCandidate) : Prop :=
  exists entry,
    lookup !! str_lower (ngram_text doc w.1 w.2) = Some entry
    /\ c = mwe_candidate entry context_window doc w.1 w.2.

(** The state of the first pass after some steps, explained by the list
    [ws] of the windows that hit so far, in the order they hit; [m] bounds
    their sizes from below. *)
Record mwe_inv (m : nat) (ws : list (nat * nat))
    (st : gset nat * list DetectedCandidate) : Prop := {
  inv_emitted : Forall2 emitted ws st.2;
  inv_sizes : Forall (fun w => m <= w.2 <= 4 /\ w.1 + w.2 <= length doc) ws;
  inv_order : forall a b wa wb,
      a < b -> ws !! a = Some wa -> ws !! b = Some wb ->
      wb.2 <= wa.2 /\ windows_disjoint wa wb;
  inv_detected : forall j, j ∈ st.1 <-> exists w, w ∈ ws /\ in_window w j
}.

Lemma mwe_inv_init (m : nat) : mwe_inv m [] (∅, []).
Proof.
  split; simpl.
  - constructor.
  - constructor.
  - intros a b wa wb _ Ha. by rewrite lookup_nil in Ha.
  - intros j. split; [set_solver|]. intros (w & Hw & _). by apply elem_of_nil in Hw.
Qed.

Lemma mwe_inv_weaken (m m' : nat) ws st :
  m' <= m -> mwe_inv m ws st -> mwe_inv m' ws st.
Proof.
  intros Hm [E S O D]. split; try done.
  eapply Forall_impl; [exact S|]. simpl. intros w ?. lia.
Qed.

Lemma ngram_step_inv (n i : nat) ws st :
  1 <= n <= 4 -> i + n <= length doc ->
  mwe_inv n ws st ->
  exists ws', mwe_inv n ws' (ngram_step lookup context_window doc n st i)
              /\ (ws' = ws \/ ws' = ws ++ [(i, n)]).
Proof.
  intros Hn Hi [E S O D]. destruct st as [detected candidates].
  unfold ngram_step. simpl in *.
  destruct (window_claimed detected i n) eqn:C.
  { exists ws. split; [by split|by left]. }
  destruct (lookup !! str_lower (ngram_text doc i n)) as [entry|] eqn:L.
  2:{ exists ws. split; [by split|by left]. }
  exists (ws ++ [(i, n)]). split; [|by right].
  rewrite window_claimed_false in C.
  split; simpl.
  - apply Forall2_app; [exact E|]. constructor; [|constructor].
    exists entry. by split.
  - apply Forall_app. split; [exact S|]. constructor; [simpl; lia|constructor].
  - intros a b wa wb Hab Ha Hb.
    destruct (decide (b < length ws)) as [Hlt|Hge].
    + rewrite lookup_app_l in Ha by lia. rewrite lookup_app_l in Hb by lia.
      by apply (O a b).
    + rewrite lookup_app_r in Hb by lia.
      destruct (b - length ws) as [|?] eqn:Eb; simpl in Hb; [|done].
      injection Hb as <-.
      assert (a < length ws) as Hlt by lia.
      rewrite lookup_app_l in Ha by lia.
      rewrite Forall_forall in S.
      assert (wa ∈ ws) as Hin by (by eapply list_elem_of_lookup_2).
      destruct (S wa Hin) as [Hs Hr]. simpl. split; [lia|].
      unfold windows_disjoint. simpl.
      assert (forall j, in_window wa j -> ~ (i <= j < i + n)) as Hno.
      { intros j Hw Hj. apply (C j Hj). apply D. by exists wa. }
      unfold in_window in Hno. specialize (Hno (Nat.max wa.1 i)). lia.
  - intros j. rewrite claim_window_elem, D. split.
    + intros [(w & Hw & Hj)|Hj].
      * exists w. split; [apply elem_of_app; by left|done].
      * exists (i, n). split; [apply elem_of_app; right; by apply list_elem_of_singleton|done].
    + intros (w & Hw & Hj). apply elem_of_app in Hw as [Hw|Hw].
      * left. by exists w.
      * apply list_elem_of_singleton in Hw as ->. by right.
Qed.

End MultiwordFacts.

Section MultiwordPass.
Context {text : PyText}.
Variable lookup : gmap string LookupRecord.
Variable context_window : Z.
Variable doc : list Token.

#[local] Abbreviation step := (ngram_step lookup context_window doc).
#[local] Abbreviation pass := (ngram_pass lookup context_window doc).
#[local] Abbreviation inv := (mwe_inv lookup context_window doc).

Lemma ngram_fold_inv (n : nat) (l : list nat) ws st :
  1 <= n <= 4 -> Forall (fun i => i + n <= length doc) l ->
  inv n ws st -> exists ws', inv n ws' (fold_left (step n) l st).
Proof.
  intros Hn Hl. revert ws st.
  induction Hl as [|i l Hi _ IH]; intros ws st I; simpl; [by exists ws|].
  destruct (ngram_step_inv lookup context_window doc n i ws st Hn Hi I)
    as (ws1 & I1 & _).
  by apply (IH ws1).
Qed.

Lemma ngram_starts_fit (n : nat) :
  1 <= n -> Forall (fun i => i + n <= length doc) (seq 0 (length doc + 1 - n)).
Proof.
  intros Hn. apply List.Forall_forall. intros i Hi. apply in_seq in Hi. lia.
Qed.

Lemma ngram_pass_inv (n : nat) ws st :
  1 <= n <= 4 -> inv n ws st -> exists ws', inv n ws' (pass st n).
Proof.
  intros Hn I. unfold ngram_pass.
  eapply ngram_fold_inv; [done|apply ngram_starts_fit; lia|exact I].
Qed.

Lemma multiword_pass_inv :
  exists ws, inv 2 ws (multiword_pass lookup context_window doc (∅, [])).
Proof.
  unfold multiword_pass. simpl.
  destruct (ngram_pass_inv 4 [] (∅, [])) as (ws4 & I4);
    [lia|apply mwe_inv_init|].
  destruct (ngram_pass_inv 3 ws4 (pass (∅, []) 4)) as (ws3 & I3);
    [lia|eapply mwe_inv_weaken; [|exact I4]; lia|].
  destruct (ngram_pass_inv 2 ws3 (pass (pass (∅, []) 4) 3)) as (ws2 & I2);
    [lia|eapply mwe_inv_weaken; [|exact I3]; lia|].
  by exists ws2.
Qed.

(** A window is settled in a state when, if its text is a key of the
    lookup, one of its positions is claimed. *)
Definition settled (st : gset nat * list DetectedCandidate) (i n : nat) : Prop :=
  is_Some (lookup !! str_lower (ngram_text doc i n)) ->
  exists j, i <= j < i + n /\ j ∈ st.1.

Lemma ngram_step_mono (n i j : nat) st :
  j ∈ st.1 -> j ∈ (step n st i).1.
Proof.
  destruct st as [detected candidates]. unfold ngram_step. simpl. intros Hj.
  destruct (window_claimed detected i n); [done|].
  destruct (lookup !! _); [|done]. simpl. apply claim_window_elem. by left.
Qed.

Lemma ngram_fold_mono (n j : nat) (l : list nat) st :
  j ∈ st.1 -> j ∈ (fold_left (step n) l st).1.
Proof.
  revert st. induction l as [|i l IH]; intros st Hj; simpl; [done|].
  by apply IH, ngram_step_mono.
Qed.

Lemma ngram_pass_mono (n j : nat) st : j ∈ st.1 -> j ∈ (pass st n).1.
Proof. apply ngram_fold_mono. Qed.

Lemma settled_mono (i n : nat) st st' :
  (forall j, j ∈ st.1 -> j ∈ st'.1) -> settled st i n -> settled st' i n.
Proof.
  intros Hm Hs Hk. destruct (Hs Hk) as (j & Hj & Hd). exists j. auto.
Qed.

Lemma ngram_step_settles (n i : nat) st : 1 <= n -> settled (step n st i) i n.
Proof.
  intros Hn. destruct st as [detected candidates]. unfold settled, ngram_step.
  destruct (window_claimed detected i n) eqn:C.
  - intros _. by apply window_claimed_true.
  - destruct (lookup !! _) eqn:L; simpl.
    + intros _. exists i. split; [lia|]. apply claim_window_elem. right. lia.
    + by intros [? ?].
Qed.

Lemma ngram_fold_settles (n i : nat) (l : list nat) st :
  1 <= n -> i ∈ l -> settled (fold_left (step n) l st) i n.
Proof.
  intros Hn. revert st. induction l as [|i' l IH]; intros st Hi; simpl.
  - by apply elem_of_nil in Hi.
  - apply elem_of_cons in Hi as [->|Hi]; [|by apply IH].
    eapply settled_mono; [|by apply (ngram_step_settles n i' st)].
    intros j. apply ngram_fold_mono.
Qed.

Lemma ngram_pass_settles (n i : nat) st :
  1 <= n -> i + n <= length doc -> settled (pass st n) i n.
Proof.
  intros Hn Hi. apply ngram_fold_settles; [done|].
  apply list_elem_of_In, in_seq. lia.
Qed.

Lemma multiword_pass_settles (n i : nat) st :
  2 <= n <= 4 -> i + n <= length doc ->
  settled (multiword_pass lookup context_window doc st) i n.
Proof.
  intros Hn Hi. unfold multiword_pass. simpl.
  assert (n = 4 \/ n = 3 \/ n = 2) as [-> | [-> | ->] ] by lia.
  - eapply settled_mono; [|apply (ngram_pass_settles 4 i st); [lia|done]].
    intros j Hj. by apply ngram_pass_mono, ngram_pass_mono.
  - eapply settled_mono; [|apply (ngram_pass_settles 3 i (pass st 4)); [lia|done]].
    intros j Hj. by apply ngram_pass_mono.
  - apply ngram_pass_settles; [lia|done].
Qed.

End MultiwordPass.

(** ** Candidate detector: the single-token pass *)

Section TokenPassFacts.
Context {text : PyText}.
Variable lookup : gmap string LookupRecord.
Variable context_window : Z.
Variable doc : list Token.

(** What the second pass emits for the token at position [i], as decided
    against a fixed set of claimed positions. *)
Definition single_hit (detected : gset nat) (it : nat * Token)
  : option DetectedCandidate :=
  if bool_decide (it.1 ∈ detected) then None
  else if tok_is_punct it.2 || tok_is_space it.2 then None
  else
    match single_match lookup it.2 with
    | Some (match_entry, matched_form) =>
        Some (single_candidate match_entry matched_form context_window doc
                               it.1 it.2)
    | None => None
    end.

Lemma token_step_hit (detected detected' : gset nat)
    (candidates : list DetectedCandidate) (i : nat) (token : Token) :
  (i ∈ detected' <-> i ∈ detected) ->
  token_step lookup context_window doc (detected', candidates) (i, token)
  = match single_hit detected (i, token) with
    | Some c => ({[i]} ∪ detected', candidates ++ [c])
    | None => (detected', candidates)
    end.
Proof.
  intros Hi. unfold token_step, single_hit. simpl.
  rewrite (bool_decide_ext _ _ Hi).
  destruct (bool_decide (i ∈ detected)); [done|].
  destruct (tok_is_punct token || tok_is_space token); [done|].
  by destruct (single_match lookup token) as [[e f]|].
Qed.

Lemma token_fold (detected : gset nat) (l : list Token) (k : nat)
    (detected' : gset nat) (candidates : list DetectedCandidate) :
  (forall j, k <= j -> (j ∈ detected' <-> j ∈ detected)) ->
  let its := combine (seq k (length l)) l in
  let r := fold_left (token_step lookup context_window doc) its
                     (detected', candidates) in
  r.2 = candidates ++ omap (single_hit detected) its
  /\ forall j, j ∈ r.1 <->
               j ∈ detected'
               \/ exists token, (j, token) ∈ its
                                /\ is_Some (single_hit detected (j, token)).
Proof.
  revert k detected' candidates.
  induction l as [|token l IH]; intros k detected' candidates Hk;
    cbn zeta; cbn [length seq combine fold_left omap list_omap].
  - split; [by rewrite app_nil_r|]. intros j. split; [by left|].
    intros [?|(t & Ht & _)]; [done|by apply elem_of_nil in Ht].
  - rewrite (token_step_hit detected) by (apply Hk; lia).
    cbn zeta in IH.
    destruct (single_hit detected (k, token)) as [c|] eqn:Hit.
    + destruct (IH (S k) ({[k]} ∪ detected') (candidates ++ [c])) as [IH1 IH2].
      { intros j Hj. rewrite <- (Hk j) by lia. set_unfold. split; [|by right].
        intros [->|?]; [lia|done]. }
      split; [by rewrite IH1, <- app_assoc|].
      intros j. rewrite IH2. set_unfold. split.
      * intros [[->|?]|(t & Ht & Hs)].
        -- right. exists token. split; [by left|by rewrite Hit].
        -- by left.
        -- right. exists t. split; [by right|done].
      * intros [?|(t & [[= -> ->]|Ht] & Hs)].
        -- by left; right.
        -- by left; left.
        -- right. by exists t.
    + destruct (IH (S k) detected' candidates) as [IH1 IH2].
      { intros j Hj. apply Hk. lia. }
      split; [exact IH1|].
      intros j. rewrite IH2. set_unfold. split.
      * intros [?|(t & Ht & Hs)]; [by left|]. right. exists t. split; [by right|done].
      * intros [?|(t & [[= -> ->]|Ht] & Hs)]; [by left| |].
        -- rewrite Hit in Hs. by destruct Hs.
        -- right. by exists t.
Qed.

Lemma token_pass_spec (detected : gset nat) (candidates : list DetectedCandidate) :
  let r := token_pass lookup context_window doc (detected, candidates) in
  r.2 = candidates ++ omap (single_hit detected) (enumerate doc)
  /\ forall j, j ∈ r.1 <->
               j ∈ detected
               \/ exists token, (j, token) ∈ enumerate doc
                                /\ is_Some (single_hit detected (j, token)).
Proof. apply (token_fold detected doc 0 detected candidates). done. Qed.

End TokenPassFacts.

(** ** Similarity searcher *)

(** A neighbor is kept when its position is not negative and its score
    reaches the threshold. *)
Definition kept (threshold : Q) (idx : Z) (score : Q) : bool :=
  negb (idx <? 0)%Z && Qle_bool threshold score.

(** [glossari[idx]] for a kept neighbor, turned into a match. *)
Definition resolve (glossari : list Entry) (idx : nat -> Z) (score : nat -> Q)
    (j : nat) : option MatchResult :=
  (fun entry => match_result entry (score j)) <$> glossari !! Z.to_nat (idx j).

Arguments kept : simpl never.
Arguments resolve : simpl never.

Lemma kept_iff (threshold : Q) (idx : Z) (score : Q) :
  kept threshold idx score = true <-> (0 <= idx)%Z /\ (threshold <= score)%Q.
Proof.
  unfold kept. rewrite andb_true_iff, negb_true_iff, Z.ltb_ge, Qle_bool_iff.
  done.
Qed.

Lemma kept_at_threshold (threshold : Q) (idx : Z) (score : Q) :
  (0 <= idx)%Z -> (score == threshold)%Q -> kept threshold idx score = true.
Proof.
  intros Hi Hs. apply kept_iff. split; [done|]. rewrite Hs. apply Qle_refl.
Qed.

Lemma not_kept_below (threshold : Q) (idx : Z) (score : Q) :
  (score < threshold)%Q -> kept threshold idx score = false.
Proof.
  intros Hs. apply not_true_iff_false. rewrite kept_iff. intros [_ Hle].
  by apply Qle_not_lt in Hle.
Qed.

Lemma not_kept_negative (threshold : Q) (idx : Z) (score : Q) :
  (idx < 0)%Z -> kept threshold idx score = false.
Proof.
  intros Hi. apply not_true_iff_false. rewrite kept_iff. lia.
Qed.

Lemma neighbor_fold_None glossari threshold idx score (l : list nat) :
  fold_left (neighbor_step glossari threshold idx score) l None = None.
Proof. by induction l. Qed.

Lemma neighbor_step_Some glossari threshold idx score
    (acc : list MatchResult) (j : nat) :
  neighbor_step glossari threshold idx score (Some acc) j
  = if kept threshold (idx j) (score j)
    then (fun m => acc ++ [m]) <$> resolve glossari idx score j
    else Some acc.
Proof.
  unfold neighbor_step, kept, resolve.
  destruct (idx j <? 0)%Z; simpl; [done|].
  destruct (Qle_bool threshold (score j)); [|done].
  by destruct (glossari !! Z.to_nat (idx j)).
Qed.

Lemma neighbor_fold glossari threshold idx score (l : list nat)
    (acc : list MatchResult) :
  fold_left (neighbor_step glossari threshold idx score) l (Some acc)
  = (fun ms => acc ++ ms)
      <$> mapM (resolve glossari idx score)
               (filter (fun j => kept threshold (idx j) (score j) = true) l).
Proof.
  revert acc. induction l as [|j l IH]; intros acc; cbn [fold_left].
  - simpl. by rewrite app_nil_r.
  - rewrite neighbor_step_Some.
    destruct (kept threshold (idx j) (score j)) eqn:K.
    + rewrite filter_cons_True by exact K. cbn [mapM].
      destruct (resolve glossari idx score j) as [m|]; simpl.
      * rewrite IH. destruct (mapM _ _); simpl; [|done].
        by rewrite <- app_assoc.
      * apply neighbor_fold_None.
    + rewrite filter_cons_False by (by rewrite K). apply IH.
Qed.

Lemma neighbor_matches_spec glossari k threshold idx score :
  neighbor_matches glossari k threshold idx score
  = mapM (resolve glossari idx score)
         (filter (fun j => kept threshold (idx j) (score j) = true) (seq 0 k)).
Proof.
  unfold neighbor_matches. rewrite neighbor_fold. by destruct (mapM _ _).
Qed.

Lemma neighbor_matches_total glossari k threshold idx score :
  is_Some (neighbor_matches glossari k threshold idx score)
  <-> forall j, j < k -> kept threshold (idx j) (score j) = true ->
                (idx j < Z.of_nat (length glossari))%Z.
Proof.
  rewrite neighbor_matches_spec, mapM_is_Some, Forall_forall. split.
  - intros Hall j Hj Hk.
    destruct (Hall j) as [m Hm].
    { apply list_elem_of_filter. split; [done|]. apply list_elem_of_In, in_seq. lia. }
    unfold resolve in Hm. destruct (glossari !! Z.to_nat (idx j)) eqn:L; [|done].
    apply lookup_lt_Some in L. apply kept_iff in Hk. lia.
  - intros Hall j Hj. apply list_elem_of_filter in Hj as [Hk Hj].
    apply list_elem_of_In, in_seq in Hj.
    assert (Z.to_nat (idx j) < length glossari) as Hlt.
    { specialize (Hall j ltac:(lia) Hk). apply kept_iff in Hk. lia. }
    apply lookup_lt_is_Some in Hlt. destruct Hlt as [e He].
    unfold compose, resolve. rewrite He. by eexists.
Qed.

Lemma candidate_fold_None glossari k threshold distances indices
    (l : list (nat * string)) :
  fold_left (candidate_step glossari k threshold distances indices) l None = None.
Proof. induction l as [|[i c] l IH]; [done|exact IH]. Qed.

Lemma candidate_fold glossari k threshold distances indices
    (l : list (nat * string)) (acc : list SearchResult) :
  fold_left (candidate_step glossari k threshold distances indices) l (Some acc)
  = (fun rs => acc ++ rs)
      <$> mapM (fun it =>
                  (fun ms => {| sr_original := it.2; sr_matches := ms |})
                    <$> neighbor_matches glossari k threshold
                          (indices it.1) (distances it.1))
               l.
Proof.
  revert acc. induction l as [|[i c] l IH]; intros acc; simpl.
  - by rewrite app_nil_r.
  - destruct (neighbor_matches _ _ _ _ _) as [ms|]; simpl.
    + rewrite IH. destruct (mapM _ _); simpl; [|done]. by rewrite <- app_assoc.
    + apply candidate_fold_None.
Qed.

(** * Specification statements *)

(** ** Concrete glossaries and texts *)

Definition glossary_term (id terme : string) (variants : list string)
  : GlossaryTermInput := {|
  gti_id := id;
  gti_terme_recomanat := terme;
  gti_variants_no_normatives := variants;
  gti_context_d_us := "";
  gti_categoria := "";
  gti_ambit := "";
  gti_notes_linguistiques := "";
  gti_font := "";
  gti_exemples_correctes := [];
  gti_exemples_incorrectes := []
|}.

(** The canonical store and the lookup a submission ends up as. *)
Definition canonical_of (glossary : list GlossaryTermInput) : list Entry :=
  fst (prepare_glossary_for_vectorization (text := ascii_text)
         (map model_dump glossary)).

Definition lookup_of (glossary : list GlossaryTermInput)
  : gmap string LookupRecord :=
  build_variants_lookup (text := ascii_text) (canonical_of glossary).

(** A stand-in lemmatizer: tokens are the blank-separated words, lemmas and
    tags come from a table, unknown words are their own lemma. *)
Definition lemma_table : list (string * (string * string)) :=
  [("les", ("el", "DET")); ("entitats", ("entitat", "NOUN"));
   ("que", ("que", "PRON")); ("conformen", ("conformar", "VERB"));
   ("el", ("el", "DET")); ("sector", ("sector", "NOUN"));
   ("i", ("i", "CCONJ")); (".", (".", "PUNCT"))].

Fixpoint table_find (w : string) (table : list (string * (string * string)))
  : option (string * string) :=
  match table with
  | [] => None
  | (k, v) :: rest => if String.eqb k w then Some v else table_find w rest
  end.

Definition table_token (w : string) : Token :=
  let '(lemma, pos) :=
    match table_find (AsciiText.lower w) lemma_table with
    | Some v => v
    | None => (w, "X")
    end in
  {| tok_text := w; tok_lemma := lemma; tok_pos := pos;
     tok_is_punct := String.eqb pos "PUNCT"; tok_is_space := false |}.

Definition table_nlp : Language := {|
  nlp_name := "core_news_trf";
  nlp_call := fun text => inr (map table_token (split_on " "%char text))
|}.

(** Scenario: "fet i fet" next to the single-token variant "fet". *)
Definition fet_glossary : list GlossaryTermInput :=
  [glossary_term "G1" "de fet" ["fet i fet"];
   glossary_term "G2" "acte" ["fet"]].

(** Scenario: a conjugated form of a listed infinitive. *)
Definition formar_glossary : list GlossaryTermInput :=
  [glossary_term "V006" "formar" ["conformar"]].

(** Globals with only the detector's artifacts loaded. *)
Definition detector_globals {vectors : Vectors} (glossary : list GlossaryTermInput)
  : Globals := {|
  model := None;
  index := None;
  glossari := Some (canonical_of glossary);
  nlp_model := Some table_nlp;
  variants_lookup := Some (lookup_of glossary)
|}.

(** ** Candidate detector *)

(** C1.  The multi-word pass runs the window sizes 4, 3, 2 in that order.
    A window is skipped exactly when one of its positions is claimed, and a
    hit claims every position of the window.  Hence the windows that hit,
    in the order they hit, explain the outcome of the pass: one multi-word
    candidate per window, sizes between 2 and 4 that never increase, any
    two windows disjoint, and the claimed positions are exactly the
    positions of these windows; every window whose text is a key of the
    lookup ends with a claimed position.  With both "fet i fet" and "fet"
    in the lookup, the text "fet i fet" yields the 3-gram and nothing
    else. *)
Theorem multiword_longest_first_disjoint :
  (forall (text : PyText) (lookup : gmap string LookupRecord)
          (context_window : Z) (doc : list Token),
      (forall st,
          multiword_pass lookup context_window doc st
          = ngram_pass lookup context_window doc
              (ngram_pass lookup context_window doc
                 (ngram_pass lookup context_window doc st 4) 3) 2)
      /\ (forall detected candidates n i,
             window_claimed detected i n = true ->
             ngram_step lookup context_window doc n (detected, candidates) i
             = (detected, candidates))
      /\ (forall detected candidates n i,
             window_claimed detected i n = false ->
             ngram_step lookup context_window doc n (detected, candidates) i
             = match lookup !! str_lower (join " " (map tok_text (take n (drop i doc)))) with
               | Some entry =>
                   (claim_window detected i n,
                    candidates ++ [mwe_candidate entry context_window doc i n])
               | None => (detected, candidates)
               end)
      /\ (forall detected i n,
             window_claimed detected i n = true
             <-> exists j, i <= j < i + n /\ j ∈ detected)
      /\ (forall detected i n j,
             j ∈ claim_window detected i n <-> j ∈ detected \/ i <= j < i + n)
      /\ (exists ws : list (nat * nat),
             let st := multiword_pass lookup context_window doc (∅, []) in
             Forall2 (emitted lookup context_window doc) ws st.2
             /\ Forall (fun w => 2 <= w.2 <= 4 /\ w.1 + w.2 <= length doc) ws
             /\ (forall a b wa wb,
                    a < b -> ws !! a = Some wa -> ws !! b = Some wb ->
                    wb.2 <= wa.2 /\ windows_disjoint wa wb)
             /\ (forall j, j ∈ st.1 <-> exists w, w ∈ ws /\ in_window w j))
      /\ (forall n i,
             2 <= n <= 4 -> i + n <= length doc ->
             is_Some (lookup !! str_lower (ngram_text doc i n)) ->
             exists j,
               i <= j < i + n
               /\ j ∈ (multiword_pass lookup context_window doc (∅, [])).1))
  /\ (forall vectors : Vectors,
         detect_candidates (text := ascii_text) (detector_globals fet_glossary)
           {| dq_text := "fet i fet"; dq_context_window := 3 |}
         = Return
             {| dr_success := true;
                dr_candidates :=
                  [{| dc_term := "fet i fet"; dc_lemma := "fet i fet";
                      dc_position := 0; dc_context := "fet i fet";
                      dc_pos_tag := "MWE"; dc_glossary_id := "G1";
                      dc_terme_recomanat := "de fet"; dc_categoria := "";
                      dc_source := "nlp" |}];
                dr_nlp_model_used := "core_news_trf";
                dr_error := None |})
  /\ (forall vectors : Vectors,
         (fun r => match r with
                   | Return res =>
                       map (fun c => (dc_position c, dc_pos_tag c, dc_term c))
                           (dr_candidates res)
                   | _ => []
                   end)
           (detect_candidates (text := ascii_text) (detector_globals fet_glossary)
              {| dq_text := "Tot Fet i fet i fet ."; dq_context_window := 1 |})
         = [(1, "MWE", "Fet i fet"); (5, "X", "fet")]).
Proof.
  split; [|split; intros vectors; by vm_compute].
  intros text lookup context_window doc.
  split; [done|]. split.
  { intros detected candidates n i C. unfold ngram_step. by rewrite C. }
  split.
  { intros detected candidates n i C. unfold ngram_step. by rewrite C. }
  split; [apply window_claimed_true|].
  split; [apply claim_window_elem|]. split.
  - destruct (multiword_pass_inv lookup context_window doc) as (ws & [E S O D]).
    exists ws. cbn zeta. done.
  - intros n i Hn Hi. by apply multiword_pass_settles.
Qed.

(** C2.  The single-token pass emits, in token order, one candidate for
    every token that was unclaimed when the pass started, is neither
    punctuation nor whitespace, and whose lowercased lemma or, failing
    that, lowercased text is a key of the lookup; the lemma is tried first
    and the first hit wins.  The candidate carries the token's position and
    part-of-speech and the record's recommended term, and the positions
    claimed by the pass are those of the emitted candidates.  For the
    glossary [formar <- conformar] and the text "les entitats que conformen
    el sector", with "conformen" lemmatized to "conformar", the detector
    returns exactly one candidate, at position 3, recommending "formar". *)
Theorem single_token_lemma_first :
  (forall (text : PyText) (lookup : gmap string LookupRecord)
          (context_window : Z) (doc : list Token),
      (forall detected candidates,
          let r := token_pass lookup context_window doc (detected, candidates) in
          r.2 = candidates
                ++ omap (single_hit lookup context_window doc detected)
                        (enumerate doc)
          /\ forall j,
               j ∈ r.1 <->
               j ∈ detected
               \/ exists token,
                    (j, token) ∈ enumerate doc
                    /\ is_Some (single_hit lookup context_window doc detected
                                           (j, token)))
      /\ (forall detected i token c,
             single_hit lookup context_window doc detected (i, token) = Some c
             <-> (i ∉ detected)
                 /\ tok_is_punct token = false
                 /\ tok_is_space token = false
                 /\ exists match_entry matched_form,
                      single_match lookup token = Some (match_entry, matched_form)
                      /\ c = single_candidate match_entry matched_form
                                              context_window doc i token)
      /\ (forall token,
             single_match lookup token
             = match lookup !! str_lower (tok_lemma token) with
               | Some e => Some (e, str_lower (tok_lemma token))
               | None =>
                   (fun e => (e, str_lower (tok_text token)))
                     <$> lookup !! str_lower (tok_text token)
               end)
      /\ (forall match_entry matched_form i token,
             let c := single_candidate match_entry matched_form
                                       context_window doc i token in
             dc_position c = i
             /\ dc_pos_tag c = tok_pos token
             /\ dc_lemma c = matched_form
             /\ dc_terme_recomanat c = lr_terme_recomanat match_entry))
  /\ (forall vectors : Vectors,
         detect_candidates (text := ascii_text)
           (detector_globals formar_glossary)
           {| dq_text := "les entitats que conformen el sector";
              dq_context_window := 3 |}
         = Return
             {| dr_success := true;
                dr_candidates :=
                  [{| dc_term := "conformen"; dc_lemma := "conformar";
                      dc_position := 3;
                      dc_context := "les entitats que conformen el sector";
                      dc_pos_tag := "VERB"; dc_glossary_id := "V006";
                      dc_terme_recomanat := "formar"; dc_categoria := "";
                      dc_source := "nlp" |}];
                dr_nlp_model_used := "core_news_trf";
                dr_error := None |}).
Proof.
  split; [|intros vectors; by vm_compute].
  intros text lookup context_window doc.
  split; [intros detected candidates; apply token_pass_spec|].
  split; [|split; [|done]].
  - intros detected i token c. unfold single_hit. simpl.
    destruct (bool_decide (i ∈ detected)) eqn:D.
    { apply bool_decide_eq_true in D. split; [done|]. by intros [? _]. }
    apply bool_decide_eq_false in D.
    destruct (tok_is_punct token); simpl.
    { split; [done|]. by intros (_ & ? & _). }
    destruct (tok_is_space token); simpl.
    { split; [done|]. by intros (_ & _ & ? & _). }
    destruct (single_match lookup token) as [[e f]|].
    + split.
      * intros [= <-]. repeat split; try done. by exists e, f.
      * intros (_ & _ & _ & e' & f' & [= <- <-] & ->). done.
    + split; [done|]. by intros (_ & _ & _ & e' & f' & ? & _).
  - intros token. unfold single_match.
    destruct (lookup !! str_lower (tok_lemma token)); [done|].
    by destruct (lookup !! str_lower (tok_text token)).
Qed.

(** ** Similarity searcher *)

(** A stand-in embedding space and an index that answers from a table of
    (score, position) rows, one row per query; missing cells are the
    sentinel position -1. *)
Definition unit_vectors : Vectors := {|
  Vec := unit;
  normalize_L2 := fun vectors => vectors
|}.

Definition unit_model : SentenceTransformer (vectors := unit_vectors) := {|
  encode := fun texts => map (fun _ => tt : @Vec unit_vectors) texts
|}.

Definition table_cell (rows : list (list (Q * Z))) (i j : nat) : Q * Z :=
  match rows !! i with
  | Some row => match row !! j with
                | Some cell => cell
                | None => (0%Q, (-1)%Z)
                end
  | None => (0%Q, (-1)%Z)
  end.

Definition table_index (rows : list (list (Q * Z)))
  : FaissIndex (vectors := unit_vectors) := {|
  index_search := fun _ _ =>
    (fun i j => (table_cell rows i j).1, fun i j => (table_cell rows i j).2)
|}.

Definition two_entries : list GlossaryTermInput :=
  [glossary_term "V006" "formar" ["conformar"];
   glossary_term "N001" "ordinador" ["computadora"]].

Definition searcher_globals (rows : list (list (Q * Z)))
  : Globals (vectors := unit_vectors) := {|
  model := Some unit_model;
  index := Some (table_index rows);
  glossari := Some (canonical_of two_entries);
  nlp_model := None;
  variants_lookup := Some (lookup_of two_entries)
|}.

(** What is read off a search answer in the examples: per query, the ids
    and scores of its matches. *)
Definition ids_and_scores (r : outcome (list SearchResult))
  : option (list (string * list (string * Q))) :=
  match r with
  | Return results =>
      Some (map (fun res =>
                   (sr_original res,
                    map (fun m => (mr_id m, mr_similitud m)) (sr_matches res)))
                results)
  | _ => None
  end.


(** ** Glossary normalizer and variant lookup *)

(** C4.  Both normalizers keep exactly the raw entries whose recommended
    term is non-empty after trimming, in their order; so no canonical entry
    has an empty recommended term, and neither has any record of the
    variant lookup built from the canonical store. *)
Theorem empty_term_never_stored :
  forall (text : PyText) (glossary_data : list RawEntry) (df : list CsvRow),
    fst (prepare_glossary_for_vectorization glossary_data)
    = map metadata_of (filter usable_term glossary_data)
    /\ Forall (fun e => terme_recomanat e <> "")
              (fst (prepare_glossary_for_vectorization glossary_data))
    /\ map_Forall (fun _ r => lr_terme_recomanat r <> "")
         (build_variants_lookup
            (fst (prepare_glossary_for_vectorization glossary_data)))
    /\ fst (build_index_rows df) = map csv_entrada (filter usable_row df)
    /\ Forall (fun e => terme_recomanat e <> "") (fst (build_index_rows df))
    /\ map_Forall (fun _ r => lr_terme_recomanat r <> "")
         (build_variants_lookup (fst (build_index_rows df))).
Proof.
  intros text glossary_data df.
  split; [by rewrite prepare_spec|].
  split; [apply prepare_terms_nonempty|].
  split; [apply lookup_terms_nonempty, prepare_terms_nonempty|].
  split; [by rewrite build_index_rows_spec|].
  split; [apply build_index_terms_nonempty|].
  apply lookup_terms_nonempty, build_index_terms_nonempty.
Qed.

(** A CSV row with a context and one variant, and no example columns. *)
Definition formar_row : CsvRow := {|
  col_ID := CStr "V006";
  col_terme_recomanat := CStr "formar";
  col_terme_no_normatiu := CStr "conformar";
  col_context_d_us := CStr "verbs";
  col_categoria := CStr "verb";
  col_ambit := CStr "";
  col_comentari := CStr "";
  col_font := CStr "";
  col_exemple_1 := CStr "";
  col_exemple_2 := CStr "";
  col_exemple_3 := CStr "";
  col_exemple_incorrecte_1 := CStr "";
  col_exemple_incorrecte_2 := CStr ""
|}.

(** C5, as stated, fails on the CSV builder: its text puts the usage
    context before the variants. *)
Lemma csv_text_context_before_variants :
  let r := build_index_rows (text := ascii_text) [formar_row] in
  r.2 = ["formar verbs conformar"]
  /\ map spec_embedding_text r.1 = ["formar conformar verbs"]
  /\ r.2 <> map spec_embedding_text r.1.
Proof. by vm_compute. Qed.

(** C5, amended.  For a structured submission the text of an entry is, joined
    by single blanks: the recommended term, the variants of the canonical
    entry, every non-empty incorrect example of the raw entry (trimmed; all
    of them, not only the two the canonical entry retains), and the usage
    context unless it is empty or ['nan'].  For a CSV row the text is the
    recommended term, then the usage context, then the raw variants cell,
    the last two unless empty or ['nan'].  Texts and canonical entries are
    parallel. *)
Theorem embedding_text_order :
  forall (text : PyText) (glossary_data : list RawEntry) (df : list CsvRow),
    (let r := prepare_glossary_for_vectorization glossary_data in
     Forall2
       (fun raw et =>
          et.1 = metadata_of raw
          /\ et.2
             = join " "
                 ([terme_recomanat et.1]
                    ++ variants_no_normatives et.1
                    ++ map str_strip
                         (filter (fun ex => truthy ex = true)
                                 (raw_exemples_incorrectes raw))
                    ++ (if usable_context (context_d_us et.1)
                        then [context_d_us et.1] else [])))
       (filter usable_term glossary_data) (zip r.1 r.2)
     /\ length r.1 = length r.2)
    /\ (let r := build_index_rows df in
        Forall2
          (fun row et =>
             et.1 = csv_entrada row
             /\ et.2
                = terme_recomanat et.1
                  +:+ (if usable_context (context_d_us et.1)
                       then " " +:+ context_d_us et.1 else "")
                  +:+ (let terme_incorrecte :=
                         str_strip (py_str (col_terme_no_normatiu row)) in
                       if usable_context terme_incorrecte
                       then " " +:+ terme_incorrecte else ""))
          (filter usable_row df) (zip r.1 r.2)
        /\ length r.1 = length r.2).
Proof.
  intros text glossary_data df. split; cbn zeta.
  - rewrite prepare_spec. simpl. split; [|by rewrite !length_map].
    induction (filter usable_term glossary_data) as [|raw l IH]; simpl;
      constructor; [by split|exact IH].
  - rewrite build_index_rows_spec. simpl. split; [|by rewrite !length_map].
    induction (filter usable_row df) as [|row l IH]; simpl;
      constructor; [by split|exact IH].
Qed.

(** C6, as stated, fails when the variants arrive as a list (it is stored
    untouched) and, for the CSV builder, on an empty item between commas. *)
Lemma list_variants_kept_verbatim :
  variants_no_normatives
    (metadata_of (text := ascii_text)
       (model_dump (glossary_term "V006" "formar" [" conformar "; " "])))
  = [" conformar "; " "]
  /\ ~ Forall (trimmed_nonempty (text := ascii_text))
         (variants_no_normatives
            (metadata_of (text := ascii_text)
               (model_dump (glossary_term "V006" "formar" [" conformar "; " "]))))
  /\ csv_variants (text := ascii_text) "conformar,,formar-se"
     = ["conformar"; ""; "formar-se"].
Proof.
  split; [done|]. split; [|done].
  intros F. apply Forall_inv in F. destruct F as [F _]. by vm_compute in F.
Qed.

(** C6, amended.  Variants that arrive as one comma-separated string are
    normalized into trimmed, non-empty strings; variants that arrive as a
    list are stored as received; the items the CSV builder stores are
    trimmed. *)
Theorem variants_normalized_from_string :
  forall (text : PyText),
    (forall s, Forall trimmed_nonempty (normalize_variants (VStr s)))
    /\ (forall s,
           normalize_variants (VStr s)
           = map str_strip
               (filter (fun v => str_strip v <> "") (split_comma s)))
    /\ (forall l, normalize_variants (VList l) = l)
    /\ (forall raw,
           variants_no_normatives (metadata_of raw)
           = normalize_variants (raw_variants_no_normatives raw))
    /\ (forall s, Forall (fun v => str_strip v = v) (csv_variants s)).
Proof.
  intros text. split; [apply normalize_variants_str|].
  split; [|split; [done|split; [done|apply csv_variants_trimmed]]].
  intros s. simpl. f_equal. apply list_filter_iff. intros v. apply truthy_true.
Qed.

(** C7.  The lookup holds, under each key, the record of the last write
    whose variant lowercases and trims to that key, in the order of the two
    loops; so the keys are lowercased, trimmed variants, and on a collision
    the last record wins.  A query is lowercased before it is looked up:
    after "Conformen" was inserted, "conformen" and "CONFORMEN" find the
    same record. *)
Theorem lookup_keys_lowercase_last_wins :
  (forall (text : PyText) (glossari_data : list Entry) (k : string),
      build_variants_lookup glossari_data !! k
      = (fun w => lookup_record w.1 w.2)
          <$> last (filter (fun w => str_strip (str_lower w.2) = k)
                           (variant_writes glossari_data)))
  /\ (forall (text : PyText) (glossari_data : list Entry) k r,
         build_variants_lookup glossari_data !! k = Some r ->
         exists e v,
           e ∈ glossari_data /\ v ∈ variants_no_normatives e /\ v <> ""
           /\ k = str_strip (str_lower v) /\ r = lookup_record e v)
  /\ (let lookup :=
        lookup_of [glossary_term "V006" "formar" ["Conformen"]] in
      lookup !! AsciiText.lower "conformen"
      = lookup !! AsciiText.lower "CONFORMEN"
      /\ lookup !! AsciiText.lower "CONFORMEN"
         = Some {| lr_id := "V006"; lr_terme_recomanat := "formar";
                   lr_categoria := ""; lr_context := "";
                   lr_variant_original := "Conformen" |})
  /\ (let lookup :=
        lookup_of [glossary_term "A" "formar" ["Conformar"; "constituir"];
                   glossary_term "B" "adaptar-se" [" conformar"]] in
      lookup !! "conformar"
      = Some {| lr_id := "B"; lr_terme_recomanat := "adaptar-se";
                lr_categoria := ""; lr_context := "";
                lr_variant_original := " conformar" |}
      /\ size lookup = 2).
Proof.
  split; [intros; apply build_variants_lookup_spec|].
  split; [intros text g k r; apply lookup_record_origin|].
  split; by vm_compute.
Qed.

(** ** Readiness and rebuild *)

(** The three artifacts of a generation, as the globals hold them. *)
Definition generation {vectors : Vectors} (g : Globals)
  : option FaissIndex * option (list Entry) * option (gmap string LookupRecord) :=
  (index g, glossari g, variants_lookup g).

(** Globals serving a glossary with a table index. *)
Definition serving_globals (rows : list (list (Q * Z)))
    (glossary : list GlossaryTermInput) : Globals (vectors := unit_vectors) := {|
  model := Some unit_model;
  index := Some (table_index rows);
  glossari := Some (canonical_of glossary);
  nlp_model := Some table_nlp;
  variants_lookup := Some (lookup_of glossary)
|}.

Definition serving_disk (rows : list (list (Q * Z)))
    (glossary : list GlossaryTermInput)
  : Disk (vectors := unit_vectors) := {|
  index_file := Some (table_index rows);
  metadata_file := Some (canonical_of glossary)
|}.

(** A rebuild in which nothing raises; the new index answers from [rows]. *)
Definition quiet_env (rows : list (list (Q * Z)))
  : Env (vectors := unit_vectors) := {|
  fault := fun _ => None;
  embed_and_index := fun _ => (table_index rows, 768);
  processing_time := "0.1s";
  size_str := "3.0 KB"
|}.

(** A rebuild in which [pickle.load] raises after the files were written. *)
Definition load_fault_env (rows : list (list (Q * Z)))
  : Env (vectors := unit_vectors) := {|
  fault := fun step =>
    match step with
    | LoadMetadata => Some "Ran out of input"
    | _ => None
    end;
  embed_and_index := fun _ => (table_index rows, 768);
  processing_time := "0.1s";
  size_str := "3.0 KB"
|}.

Lemma table_index_differs :
  table_index [[(9 # 10, 0%Z)]] <> table_index [[(9 # 10, 1%Z)]].
Proof.
  intros E.
  apply (f_equal (fun ix => (index_search ix [] 0).2 0 0)) in E.
  by vm_compute in E.
Qed.

(** C10.  An empty variant lookup is rejected by [detect_candidates] with
    the same 503 as a lookup that was never built, and an empty canonical
    store is rejected by [search] with the same 503 as a missing one.  A
    glossary without variants builds the empty lookup, so after a
    successful rebuild from such a glossary detection is still refused. *)
Theorem empty_artifact_not_ready :
  (forall (vectors : Vectors) (text : PyText) m ix gl nlp request,
      detect_candidates
        {| model := m; index := ix; glossari := gl;
           nlp_model := Some nlp; variants_lookup := Some ∅ |} request
      = Raise 503
          "Lookup de variants no disponible. Vectoritzeu el glossari primer."
      /\ detect_candidates
           {| model := m; index := ix; glossari := gl;
              nlp_model := Some nlp; variants_lookup := None |} request
         = Raise 503
             "Lookup de variants no disponible. Vectoritzeu el glossari primer.")
  /\ (forall (vectors : Vectors) m ix nlp vl request,
         search
           {| model := Some m; index := ix; glossari := Some [];
              nlp_model := nlp; variants_lookup := vl |} request
         = Raise 503
             "Índex no disponible. Utilitzeu l'endpoint /vectorize per crear l'índex primer."
         /\ search
              {| model := Some m; index := ix; glossari := None;
                 nlp_model := nlp; variants_lookup := vl |} request
            = Raise 503
                "Índex no disponible. Utilitzeu l'endpoint /vectorize per crear l'índex primer.")
  /\ (forall (text : PyText) (entries : list Entry),
         Forall (fun e => variants_no_normatives e = []) entries ->
         build_variants_lookup entries = ∅)
  /\ (let run :=
        vectorize (text := ascii_text) (quiet_env [[(9 # 10, 0%Z)]])
          (serving_globals [] []) (serving_disk [] [])
          [glossary_term "V006" "formar" []] in
      (exists r, run.2 = Return r /\ vr_success r = true)
      /\ variants_lookup run.1.1 = Some ∅
      /\ detect_candidates (text := ascii_text) run.1.1
           {| dq_text := "les entitats que conformen el sector";
              dq_context_window := 3 |}
         = Raise 503
             "Lookup de variants no disponible. Vectoritzeu el glossari primer.").
Proof.
  split; [|split; [|split]].
  - intros vectors text m ix gl nlp request. unfold detect_candidates. simpl.
    by rewrite map_size_empty.
  - intros vectors m ix nlp vl request. unfold search. simpl.
    by destruct ix.
  - intros text entries. apply no_variants_empty_lookup.
  - cbn zeta. split; [eexists; split; by vm_compute|]. split; by vm_compute.
Qed.

Section RebuildFacts.
Context {vectors : Vectors} {text : PyText}.

Lemma build_no_usable_entries (env : Env) (disk : Disk)
    (glossary_data : list RawEntry) :
  fst (prepare_glossary_for_vectorization glossary_data) = [] ->
  build_index_from_data env disk glossary_data
  = (disk, BuildFailure "No valid glossary entries to vectorize").
Proof.
  unfold build_index_from_data.
  destruct (prepare_glossary_for_vectorization glossary_data) as [g t].
  simpl. by intros ->.
Qed.

Lemma prepare_all_unusable (glossary_data : list RawEntry) :
  Forall (fun e => str_strip (raw_terme_recomanat e) = "") glossary_data ->
  fst (prepare_glossary_for_vectorization glossary_data) = [].
Proof.
  intros Hall. rewrite prepare_spec. simpl.
  induction Hall as [|e l He _ IH]; [done|].
  rewrite filter_cons_False; [exact IH|].
  unfold usable_term. rewrite He. by intros N.
Qed.

Lemma vectorize_build_failure (env : Env) (g : Globals) (disk : Disk)
    (glossary : list GlossaryTermInput) (disk' : Disk) (error : string) :
  glossary <> [] ->
  build_index_from_data env disk (map model_dump glossary)
  = (disk', BuildFailure error) ->
  vectorize env g disk glossary
  = (g, disk', Raise 500 ("Vectorization failed: " +:+ error)).
Proof.
  intros Hne Hb. unfold vectorize. destruct glossary as [|t ts]; [done|].
  by rewrite Hb.
Qed.

Lemma vectorize_success (env : Env) (g g' : Globals) (disk disk' : Disk)
    (glossary : list GlossaryTermInput) (r : VectorizeResult) :
  vectorize env g disk glossary = (g', disk', Return r) ->
  exists ix,
    let entries :=
      fst (prepare_glossary_for_vectorization (map model_dump glossary)) in
    index_file disk' = Some ix
    /\ metadata_file disk' = Some entries
    /\ g' = set_variants_lookup (set_glossari (set_index g ix) entries)
              (build_variants_lookup entries)
    /\ vr_success r = true.
Proof.
  unfold vectorize. destruct glossary as [|t ts]; [done|].
  unfold build_index_from_data.
  destruct (prepare_glossary_for_vectorization (map model_dump (t :: ts)))
    as [entries texts] eqn:P.
  destruct (length entries =? 0)%nat; [done|].
  destruct (fault env LoadAndEncode); [done|].
  destruct (embed_and_index env texts) as [ix dimension].
  destruct (fault env WriteIndex); [done|].
  destruct (fault env DumpMetadata); [done|].
  destruct (fault env StatIndex); [done|].
  unfold read_index, load_metadata. simpl.
  destruct (fault env ReadIndex); [done|].
  destruct (fault env LoadMetadata); [done|].
  intros [= <- <- <-]. by exists ix.
Qed.

End RebuildFacts.

(** C8, as stated, fails when the rebuild fails while reloading: the index
    was already replaced when [pickle.load] raised, and the 500 leaves it
    replaced, next to the old store and lookup; a search then finds the
    new index pointing outside the old store. *)
Lemma failed_reload_replaces_index :
  let old := serving_globals [[(9 # 10, 0%Z)]] formar_glossary in
  let run :=
    vectorize (text := ascii_text) (load_fault_env [[(9 # 10, 1%Z)]])
      old (serving_disk [[(9 # 10, 0%Z)]] formar_glossary) two_entries in
  run.2 = Raise 500 "Ran out of input"
  /\ generation run.1.1 <> generation old
  /\ glossari run.1.1 = glossari old
  /\ search old {| sq_candidates := ["computadora"]; sq_k := 1;
                   sq_threshold := 4 # 5 |}
     = Return [{| sr_original := "computadora";
                  sr_matches :=
                    [match_result
                       (metadata_of (text := ascii_text)
                          (model_dump (glossary_term "V006" "formar" ["conformar"])))
                       (9 # 10)] |}]
  /\ search run.1.1 {| sq_candidates := ["computadora"]; sq_k := 1;
                       sq_threshold := 4 # 5 |}
     = Fault "IndexError: list index out of range".
Proof.
  cbn zeta. split; [by vm_compute|]. split; [|split; [done|split; by vm_compute]].
  intros E. apply (f_equal (fun x => x.1.1)) in E.
  change (Some (table_index [[(9 # 10, 1%Z)]])
          = Some (table_index [[(9 # 10, 0%Z)]])) in E.
  apply (inj Some) in E. symmetry in E. by apply table_index_differs.
Qed.

(** C8, amended.  With no usable entry (an empty list, or only entries
    whose recommended term is empty after trimming) [build_index_from_data]
    returns the failure dict with the message "No valid glossary entries to
    vectorize" and writes nothing.  [/vectorize] answers an empty request
    with a 400 and any failure dict of the builder with a 500 that carries
    its message; in both cases the globals are left as they were. *)
Theorem no_usable_entries_structured_failure :
  forall (vectors : Vectors) (text : PyText) (env : Env) (g : Globals)
         (disk : Disk),
    (forall glossary_data,
        fst (prepare_glossary_for_vectorization glossary_data) = [] ->
        let r := build_index_from_data env disk glossary_data in
        r.1 = disk
        /\ result_success r.2 = false
        /\ result_error r.2 = Some "No valid glossary entries to vectorize")
    /\ fst (prepare_glossary_for_vectorization []) = []
    /\ (forall glossary_data,
           Forall (fun e => str_strip (raw_terme_recomanat e) = "") glossary_data ->
           fst (prepare_glossary_for_vectorization glossary_data) = [])
    /\ vectorize env g disk [] = (g, disk, Raise 400 "No glossary data provided")
    /\ (forall glossary,
           glossary <> [] ->
           Forall (fun t => str_strip (gti_terme_recomanat t) = "") glossary ->
           vectorize env g disk glossary
           = (g, disk,
              Raise 500
                "Vectorization failed: No valid glossary entries to vectorize"))
    /\ (forall glossary disk' error,
           glossary <> [] ->
           build_index_from_data env disk (map model_dump glossary)
           = (disk', BuildFailure error) ->
           vectorize env g disk glossary
           = (g, disk', Raise 500 ("Vectorization failed: " +:+ error))).
Proof.
  intros vectors text env g disk.
  split; [|split; [done|split; [apply prepare_all_unusable|split; [done|split]]]].
  - intros glossary_data Hg. cbn zeta.
    by rewrite build_no_usable_entries.
  - intros glossary Hne Hall.
    apply (vectorize_build_failure env g disk glossary disk); [done|].
    apply build_no_usable_entries, prepare_all_unusable.
    apply List.Forall_map. exact Hall.
  - intros glossary disk' error. apply vectorize_build_failure.
Qed.

(** C9, as stated, fails: publishing is three assignments, and when the
    second one does not happen the first one stays.  The globals then pair
    the new index with the old store, and a search reads position 0 of the
    new index (the new entry "ordinador") as the old entry "formar". *)
Lemma new_index_with_old_store :
  let old := serving_globals [[(2 # 5, 0%Z)]] formar_glossary in
  let glossary :=
    [glossary_term "N001" "ordinador" ["computadora"];
     glossary_term "V006" "formar" ["conformar"]] in
  let run :=
    vectorize (text := ascii_text) (load_fault_env [[(9 # 10, 0%Z)]])
      old (serving_disk [[(2 # 5, 0%Z)]] formar_glossary) glossary in
  index_file run.1.2 = Some (table_index [[(9 # 10, 0%Z)]])
  /\ metadata_file run.1.2 = Some (canonical_of glossary)
  /\ index run.1.1 = index_file run.1.2
  /\ glossari run.1.1 = Some (canonical_of formar_glossary)
  /\ glossari run.1.1 <> metadata_file run.1.2
  /\ variants_lookup run.1.1 = Some (lookup_of formar_glossary)
  /\ ids_and_scores
       (search run.1.1 {| sq_candidates := ["computadora"]; sq_k := 1;
                          sq_threshold := 4 # 5 |})
     = Some [("computadora", [("V006", 9 # 10)])].
Proof.
  cbn zeta. repeat split; try done; try (by vm_compute).
Qed.

(** C9, amended.  A rebuild that returns success has assigned, one after
    the other, the index read back from the index file, the canonical
    store read back from the metadata file, and the variant lookup built
    from that store; the store is the normalized submission, and the
    remaining globals are untouched.  There is no generation reference. *)
Theorem successful_rebuild_publishes_all :
  forall (vectors : Vectors) (text : PyText) (env : Env) (g g' : Globals)
         (disk disk' : Disk) (glossary : list GlossaryTermInput)
         (r : VectorizeResult),
    vectorize env g disk glossary = (g', disk', Return r) ->
    exists ix,
      let entries :=
        fst (prepare_glossary_for_vectorization (map model_dump glossary)) in
      index_file disk' = Some ix
      /\ metadata_file disk' = Some entries
      /\ g' = set_variants_lookup (set_glossari (set_index g ix) entries)
                (build_variants_lookup entries)
      /\ generation g'
         = (Some ix, Some entries, Some (build_variants_lookup entries))
      /\ model g' = model g
      /\ nlp_model g' = nlp_model g
      /\ vr_success r = true.
Proof.
  intros vectors text env g g' disk disk' glossary r Hv.
  destruct (vectorize_success env g g' disk disk' glossary r Hv)
    as (ix & Hi & Hm & -> & Hs).
  exists ix. cbn zeta. by repeat split.
Qed.

(** The statement above at a rebuild in which nothing raises: two entries
    replace a one-entry generation. *)
Lemma successful_rebuild_publishes_all_witness :
  let run :=
    vectorize (text := ascii_text) (quiet_env [[(9 # 10, 1%Z)]])
      (serving_globals [[(9 # 10, 0%Z)]] formar_glossary)
      (serving_disk [[(9 # 10, 0%Z)]] formar_glossary) two_entries in
  exists ix,
    index_file run.1.2 = Some ix
    /\ metadata_file run.1.2 = Some (canonical_of two_entries)
    /\ run.1.1
       = set_variants_lookup
           (set_glossari
              (set_index (serving_globals [[(9 # 10, 0%Z)]] formar_glossary) ix)
              (canonical_of two_entries))
           (lookup_of two_entries)
    /\ generation run.1.1
       = (Some ix, Some (canonical_of two_entries), Some (lookup_of two_entries))
    /\ model run.1.1 = Some unit_model
    /\ nlp_model run.1.1 = Some table_nlp
    /\ vr_success
         {| vr_success := true;
            vr_report :=
              {| glossaryEntries := 2; vectorizedEntries := 2;
                 embeddingModel := MODEL_NAME; vectorDimensions := 768;
                 indexType := "FAISS FlatIP"; processingTime := "0.1s";
                 indexSize := "3.0 KB" |};
            vr_error := None |} = true.
Proof.
  cbn zeta.
  apply (successful_rebuild_publishes_all unit_vectors ascii_text
           (quiet_env [[(9 # 10, 1%Z)]])
           (serving_globals [[(9 # 10, 0%Z)]] formar_glossary) _
           (serving_disk [[(9 # 10, 0%Z)]] formar_glossary) _ two_entries).
  reflexivity.
Defined.

(** * The remaining endpoints of [main.py] *)

Record ReloadResult := {
  rr_success : bool;
  rr_variants_count : nat
}.

(** The dict returned by [/health]. *)
Record HealthReport := {
  h_status : string;
  h_model_loaded : bool;
  h_index_loaded : bool;
  h_glossary_entries : nat;
  h_ready_for_search : bool;
  h_nlp_model_loaded : bool;
  h_nlp_model_name : option string;
  h_variants_count : nat;
  h_ready_for_nlp_detection : bool
}.

Section Endpoints.
Context {vectors : Vectors} {text : PyText}.

(** [/reload-variants] *)
Definition reload_variants (g : Globals) : Globals * outcome ReloadResult :=
  match glossari g with
  | Some (e :: es) =>
      let lookup := build_variants_lookup (e :: es) in
      (set_variants_lookup g lookup,
       Return {| rr_success := true; rr_variants_count := size lookup |})
  | _ => (g, Raise 503 "No glossari loaded. Run vectorization first.")
  end.

(** [/health]: the readiness flags test [is not None], the counts test the
    truth value first. *)
Definition health (g : Globals) : HealthReport := {|
  h_status := "ok";
  h_model_loaded := bool_decide (is_Some (model g));
  h_index_loaded := bool_decide (is_Some (index g));
  h_glossary_entries :=
    match glossari g with
    | Some entries => length entries
    | None => 0
    end;
  h_ready_for_search :=
    bool_decide (is_Some (model g)) && bool_decide (is_Some (index g))
    && bool_decide (is_Some (glossari g));
  h_nlp_model_loaded := bool_decide (is_Some (nlp_model g));
  h_nlp_model_name := nlp_name <$> nlp_model g;
  h_variants_count :=
    match variants_lookup g with
    | Some lookup => size lookup
    | None => 0
    end;
  h_ready_for_nlp_detection :=
    bool_decide (is_Some (nlp_model g))
    && bool_decide (is_Some (variants_lookup g))
|}.

(** What the start-up hook finds: the embedding model ([None] when
    [SentenceTransformer(MODEL_NAME)] raises) and the two spaCy pipelines
    ([None] when [spacy.load] raises [OSError]). *)
Record Boot := {
  boot_model : option SentenceTransformer;
  boot_trf : option Language;
  boot_sm : option Language
}.

(** [load_models]: the start-up hook.  A file is read only when it exists;
    a read that raises is not caught and aborts the start. *)
Definition load_models (boot : Boot) (env : Env) (disk : Disk)
  : outcome Globals :=
  match boot_model boot with
  | None => Fault "RuntimeError: No s'ha pogut carregar el model d'embeddings"
  | Some m =>
      let nlp :=
        match boot_trf boot with
        | Some trf => Some trf
        | None => boot_sm boot
        end in
      match
        match index_file disk with
        | Some ix =>
            match fault env ReadIndex with
            | Some e => inl e
            | None => inr (Some ix)
            end
        | None => inr None
        end
      with
      | inl e => Fault e
      | inr ix =>
          match metadata_file disk with
          | Some entries =>
              match fault env LoadMetadata with
              | Some e => Fault e
              | None =>
                  Return {| model := Some m; index := ix;
                            glossari := Some entries; nlp_model := nlp;
                            variants_lookup :=
                              Some (build_variants_lookup entries) |}
              end
          | None =>
              Return {| model := Some m; index := ix; glossari := None;
                        nlp_model := nlp; variants_lookup := None |}
          end
      end
  end.

End Endpoints.

(** * Further properties *)

(** ** Health report, reload and start-up *)

Section EndpointFacts.
Context {vectors : Vectors} {text : PyText}.

(** X1.  [search] answers 503 exactly when [/health] reports the service not
    ready for search or the canonical store is an empty list, and
    [detect_candidates] answers 503 exactly when [/health] reports it not
    ready for detection or the variant lookup is empty: the health flags
    test for [None], the handlers test the truth value. *)
Theorem health_flags_and_refusals (g : Globals) (sreq : SearchRequest)
    (dreq : DetectCandidatesRequest) :
  ((exists detail, search g sreq = Raise 503 detail)
   <-> h_ready_for_search (health g) = false \/ glossari g = Some [])
  /\ ((exists detail, detect_candidates g dreq = Raise 503 detail)
      <-> h_ready_for_nlp_detection (health g) = false
          \/ variants_lookup g = Some ∅).
Proof.
  destruct g as [m ix gl nlp vl]. unfold search, detect_candidates, health.
  simpl. split.
  - destruct m as [m|]; simpl.
    2:{ split; [by left|]. intros _. by eexists. }
    destruct ix as [ix|]; simpl.
    2:{ split; [by left|]. intros _. by eexists. }
    destruct gl as [[|e es]|]; simpl.
    + split; [by right|]. intros _. by eexists.
    + destruct (index_search ix _ _) as [distances indices].
      destruct (fold_left _ _ _); split; try (by intros [? ?]);
        by intros [?|?].
    + split; [by left|]. intros _. by eexists.
  - destruct nlp as [nlp|]; simpl.
    2:{ split; [by left|]. intros _. by eexists. }
    destruct vl as [lookup|]; simpl.
    2:{ split; [by left|]. intros _. by eexists. }
    destruct (decide (size lookup = 0)) as [E|N].
    + rewrite bool_decide_eq_true_2 by exact E.
      split; [|intros _; by eexists].
      intros _. right. f_equal. by apply map_size_empty_iff.
    + rewrite bool_decide_eq_false_2 by exact N.
      destruct (nlp_call nlp (dq_text dreq)); split; try (by intros [? ?]);
        intros [?|[= ->]]; try done; by rewrite map_size_empty in N.
Qed.

(** X2.  [/reload-variants] refuses with 503, touching nothing, exactly
    when the canonical store is missing or empty; otherwise it replaces the
    lookup by the one built from the store, reports its size, leaves the
    other globals alone, and doing it a second time changes nothing. *)
Theorem reload_variants_rebuilds_from_store (g : Globals) :
  (glossari g = None \/ glossari g = Some [] ->
   reload_variants g
   = (g, Raise 503 "No glossari loaded. Run vectorization first."))
  /\ (forall entries,
         glossari g = Some entries -> entries <> [] ->
         let g' := (reload_variants g).1 in
         (reload_variants g).2
         = Return {| rr_success := true;
                     rr_variants_count := size (build_variants_lookup entries) |}
         /\ variants_lookup g' = Some (build_variants_lookup entries)
         /\ model g' = model g /\ index g' = index g
         /\ glossari g' = glossari g /\ nlp_model g' = nlp_model g
         /\ reload_variants g' = reload_variants g).
Proof.
  destruct g as [m ix gl nlp vl]. unfold reload_variants. simpl. split.
  - by intros [->| ->].
  - intros entries [= ->] Hne. by destruct entries as [|e es].
Qed.

End EndpointFacts.

Section StartupFacts.
Context {vectors : Vectors} {text : PyText}.

Lemma load_models_facts (boot : Boot) (env : Env) (disk : Disk)
    (g : Globals) :
  load_models boot env disk = Return g ->
  model g = boot_model boot
  /\ is_Some (model g)
  /\ nlp_model g = match boot_trf boot with
                   | Some trf => Some trf
                   | None => boot_sm boot
                   end
  /\ index g = index_file disk
  /\ glossari g = metadata_file disk
  /\ variants_lookup g = build_variants_lookup <$> metadata_file disk.
Proof.
  unfold load_models. destruct (boot_model boot) as [m|]; [|done].
  destruct (index_file disk) as [ix|].
  - destruct (fault env ReadIndex); [done|].
    destruct (metadata_file disk) as [entries|].
    + destruct (fault env LoadMetadata); [done|].
      intros [= <-]. simpl. repeat split; try done; by eexists.
    + intros [= <-]. simpl. repeat split; try done; by eexists.
  - destruct (metadata_file disk) as [entries|].
    + destruct (fault env LoadMetadata); [done|].
      intros [= <-]. simpl. repeat split; try done; by eexists.
    + intros [= <-]. simpl. repeat split; try done; by eexists.
Qed.

(** X3.  When the start-up hook completes, the globals hold the embedding
    model, the transformer pipeline or else the small one, the index and
    the canonical store found on disk (each [None] when its file is
    missing), and the variant lookup built from that store: the lookup is
    present exactly when the store is. *)
Theorem startup_loads_what_disk_holds (boot : Boot) (env : Env) (disk : Disk)
    (g : Globals) :
  load_models boot env disk = Return g ->
  model g = boot_model boot
  /\ is_Some (model g)
  /\ nlp_model g = match boot_trf boot with
                   | Some trf => Some trf
                   | None => boot_sm boot
                   end
  /\ index g = index_file disk
  /\ glossari g = metadata_file disk
  /\ variants_lookup g = build_variants_lookup <$> metadata_file disk.
Proof. apply load_models_facts. Qed.

(** X4.  Restart after a successful rebuild: started on the files the
    rebuild left, with the same embedding model and pipeline and no read
    fault, the start-up hook rebuilds exactly the globals the rebuild had
    published. *)
Theorem restart_restores_published_generation (env env' : Env)
    (g g' : Globals) (disk disk' : Disk) (glossary : list GlossaryTermInput)
    (r : VectorizeResult) (boot : Boot) :
  vectorize env g disk glossary = (g', disk', Return r) ->
  boot_model boot = model g -> is_Some (model g) ->
  match boot_trf boot with
  | Some trf => Some trf
  | None => boot_sm boot
  end = nlp_model g ->
  fault env' ReadIndex = None -> fault env' LoadMetadata = None ->
  load_models boot env' disk' = Return g'.
Proof.
  intros Hv Hm [m Hsome] Hn Hr Hl.
  destruct (vectorize_success env g g' disk disk' glossary r Hv)
    as (ix & Hi & Hd & -> & _).
  unfold load_models. rewrite Hm, Hsome, Hi, Hr, Hd, Hl, Hn.
  destruct g as [gm gi gg gn gv]. simpl in *. by rewrite Hsome.
Qed.

End StartupFacts.

Definition table_boot : Boot (vectors := unit_vectors) := {|
  boot_model := Some unit_model;
  boot_trf := None;
  boot_sm := Some table_nlp
|}.

Lemma startup_loads_what_disk_holds_witness :
  let g := serving_globals [[(9 # 10, 0%Z)]] formar_glossary in
  model g = boot_model table_boot
  /\ is_Some (model g)
  /\ nlp_model g = Some table_nlp
  /\ index g = Some (table_index [[(9 # 10, 0%Z)]])
  /\ glossari g = Some (canonical_of formar_glossary)
  /\ variants_lookup g
     = build_variants_lookup (text := ascii_text)
         <$> Some (canonical_of formar_glossary).
Proof.
  cbn zeta.
  apply (startup_loads_what_disk_holds (text := ascii_text) table_boot
           (quiet_env []) (serving_disk [[(9 # 10, 0%Z)]] formar_glossary)).
  reflexivity.
Defined.

Lemma restart_restores_published_generation_witness :
  load_models (text := ascii_text) table_boot (quiet_env [])
    (vectorize (text := ascii_text) (quiet_env [[(9 # 10, 1%Z)]])
       (serving_globals [[(9 # 10, 0%Z)]] formar_glossary)
       (serving_disk [[(9 # 10, 0%Z)]] formar_glossary) two_entries).1.2
  = Return
      (vectorize (text := ascii_text) (quiet_env [[(9 # 10, 1%Z)]])
         (serving_globals [[(9 # 10, 0%Z)]] formar_glossary)
         (serving_disk [[(9 # 10, 0%Z)]] formar_glossary) two_entries).1.1.
Proof.
  eapply (restart_restores_published_generation (text := ascii_text)
            (quiet_env [[(9 # 10, 1%Z)]]) (quiet_env [])
            (serving_globals [[(9 # 10, 0%Z)]] formar_glossary) _
            (serving_disk [[(9 # 10, 0%Z)]] formar_glossary) _ two_entries).
  - reflexivity.
  - reflexivity.
  - by eexists.
  - reflexivity.
  - reflexivity.
  - reflexivity.
Defined.

(** ** Variant lookup: keys, size, empty variants *)

Lemma size_list_to_set_le (l : list string) :
  size (list_to_set l : gset string) <= length l.
Proof.
  induction l as [|x l IH]; [by vm_compute|]. cbn [list_to_set length].
  destruct (decide (x ∈ l)) as [Hin|Hout].
  - assert ({[x]} ∪ list_to_set l = (list_to_set l : gset string)) as ->;
      [|lia].
    apply set_eq. intros y. rewrite elem_of_union, elem_of_singleton,
      elem_of_list_to_set. split; [by intros [->|?]|by right].
  - rewrite size_union; [rewrite size_singleton; lia|].
    intros y. rewrite elem_of_singleton, elem_of_list_to_set. by intros ->.
Qed.

Lemma size_list_to_set_eq (l : list string) :
  size (list_to_set l : gset string) = length l <-> NoDup l.
Proof.
  split; [|apply size_list_to_set].
  induction l as [|x l IH]; [constructor|]. cbn [list_to_set length].
  pose proof (size_list_to_set_le l) as Hle.
  destruct (decide (x ∈ l)) as [Hin|Hout].
  - assert ({[x]} ∪ list_to_set l = (list_to_set l : gset string)) as ->;
      [|lia].
    apply set_eq. intros y. rewrite elem_of_union, elem_of_singleton,
      elem_of_list_to_set. split; [by intros [->|?]|by right].
  - rewrite size_union.
    + rewrite size_singleton. intros E.
      constructor; [exact Hout|]. apply IH. lia.
    + intros y. rewrite elem_of_singleton, elem_of_list_to_set. by intros ->.
Qed.

Section LookupInvariants.
Context {text : PyText}.

Lemma variant_writes_elem_iff (g : list Entry) (e : Entry) (v : string) :
  (e, v) ∈ variant_writes g
  <-> e ∈ g /\ v ∈ variants_no_normatives e /\ v <> "".
Proof.
  split; [apply variant_writes_elem|].
  intros (He & Hv & Hne). unfold variant_writes.
  apply list_elem_of_In, in_flat_map. exists e.
  split; [by apply list_elem_of_In|].
  apply in_map, list_elem_of_In, list_elem_of_filter.
  split; [by apply truthy_true|done].
Qed.

Lemma writes_dom (ws : list (Entry * string)) (m : gmap string LookupRecord) :
  dom (fold_left write_record ws m)
  = list_to_set (map (fun w => variant_key w.2) ws) ∪ dom m.
Proof.
  revert m. induction ws as [|w ws IH]; intros m; simpl.
  - by rewrite (left_id_L ∅ (∪)).
  - rewrite IH. unfold write_record. rewrite dom_insert_L.
    by rewrite (assoc_L (∪)), (comm_L (∪) (list_to_set _) {[_]}).
Qed.

Lemma lookup_dom (g : list Entry) :
  dom (build_variants_lookup g)
  = list_to_set (map (fun w => variant_key w.2) (variant_writes g)).
Proof.
  unfold build_variants_lookup. rewrite build_writes, writes_dom, dom_empty_L.
  by rewrite (right_id_L ∅ (∪)).
Qed.

(** X5.  A string is a key of the lookup exactly when it is the lowercased,
    trimmed form of a non-empty variant of some entry, and every record
    sits under the lowercased, trimmed form of its own original variant,
    which is never empty. *)
Theorem lookup_keys_are_variant_forms (g : list Entry) :
  (forall k,
      is_Some (build_variants_lookup g !! k)
      <-> exists e v,
            e ∈ g /\ v ∈ variants_no_normatives e /\ v <> ""
            /\ k = str_strip (str_lower v))
  /\ map_Forall
       (fun k r =>
          k = str_strip (str_lower (lr_variant_original r))
          /\ lr_variant_original r <> "")
       (build_variants_lookup g).
Proof.
  split.
  - intros k. rewrite <- elem_of_dom, lookup_dom, elem_of_list_to_set. split.
    + intros Hk. apply list_elem_of_In, in_map_iff in Hk as ([e v] & <- & Hw).
      apply list_elem_of_In, variant_writes_elem_iff in Hw.
      exists e, v. by destruct Hw as (? & ? & ?).
    + intros (e & v & He & Hv & Hne & ->).
      apply list_elem_of_In, in_map_iff. exists (e, v).
      split; [done|]. apply list_elem_of_In, variant_writes_elem_iff. done.
  - intros k r Hr.
    apply lookup_record_origin in Hr as (e & v & _ & _ & Hne & -> & ->).
    done.
Qed.

(** X6.  The size of the lookup (the reported variants count) is at most
    the number of non-empty variants, which is at most the number of
    variants, and it equals the number of non-empty variants exactly when
    no two of them share a lowercased, trimmed form. *)
Theorem lookup_size_counts_distinct_forms (g : list Entry) :
  size (build_variants_lookup g) <= length (variant_writes g)
  /\ length (variant_writes g)
     <= length (flat_map variants_no_normatives g)
  /\ (size (build_variants_lookup g) = length (variant_writes g)
      <-> NoDup (map (fun w => str_strip (str_lower w.2)) (variant_writes g))).
Proof.
  rewrite <- size_dom, lookup_dom. split; [|split].
  - etrans; [apply size_list_to_set_le|]. by rewrite length_map.
  - unfold variant_writes. induction g as [|e g IH]; simpl; [done|].
    rewrite !length_app, length_map.
    pose proof (length_filter (fun v => truthy v = true)
                  (variants_no_normatives e)).
    lia.
  - rewrite <- size_list_to_set_eq. by rewrite length_map.
Qed.

End LookupInvariants.

(** The same entry with another list of variants. *)
Definition with_variants (e : Entry) (variants : list string) : Entry := {|
  entry_id := entry_id e;
  terme_recomanat := terme_recomanat e;
  variants_no_normatives := variants;
  context_d_us := context_d_us e;
  categoria := categoria e;
  ambit := ambit e;
  comentari := comentari e;
  font := font e;
  exemple_1 := exemple_1 e;
  exemple_2 := exemple_2 e;
  exemple_3 := exemple_3 e;
  exemple_incorrecte_1 := exemple_incorrecte_1 e;
  exemple_incorrecte_2 := exemple_incorrecte_2 e
|}.

Lemma filter_map_swap {A B} (P : B -> Prop) `{forall y, Decision (P y)}
    (f : A -> B) (l : list A) :
  filter P (map f l) = map f (filter (fun x => P (f x)) l).
Proof.
  induction l as [|x l IH]; simpl; [done|].
  destruct (decide (P (f x))) as [Hp|Hn].
  - rewrite !filter_cons_True by done. simpl. by rewrite IH.
  - by rewrite !filter_cons_False by done.
Qed.

Section EmptyVariants.
Context {text : PyText}.

Lemma writes_same_records (e e' : Entry) (vs : list string)
    (lookup : gmap string LookupRecord) :
  (forall v, lookup_record e v = lookup_record e' v) ->
  fold_left write_record (map (pair e) vs) lookup
  = fold_left write_record (map (pair e') vs) lookup.
Proof.
  intros Hr. revert lookup. induction vs as [|v vs IH]; intros lookup; simpl;
    [done|].
  rewrite IH. unfold write_record at 2 4. simpl. by rewrite Hr.
Qed.

Lemma add_entry_with_variants (e : Entry) (vs vs' : list string)
    (lookup : gmap string LookupRecord) :
  filter (fun v => truthy v = true) vs = filter (fun v => truthy v = true) vs' ->
  add_entry lookup (with_variants e vs) = add_entry lookup (with_variants e vs').
Proof.
  intros Hf. unfold add_entry. simpl. rewrite !add_entry_writes, Hf.
  by apply writes_same_records.
Qed.

Lemma csv_variants_nonempty_part (s : string) :
  s <> "" ->
  filter (fun v => truthy v = true) (csv_variants s) = normalize_variants (VStr s).
Proof.
  intros Hs. unfold csv_variants. apply truthy_true in Hs. rewrite Hs. simpl.
  apply filter_map_swap.
Qed.

Lemma normalize_variants_nonempty_part (s : string) :
  filter (fun v => truthy v = true) (normalize_variants (VStr s))
  = normalize_variants (VStr s).
Proof.
  simpl. rewrite filter_map_swap. f_equal.
  rewrite list_filter_filter. apply list_filter_iff. tauto.
Qed.

(** X7.  Empty variants never reach the lookup: dropping them from every
    entry gives the same lookup.  So the CSV builder, which keeps the empty
    items of a variants cell, and the structured normalizer, which drops
    them, lead to the same lookup records for the same non-empty cell. *)
Theorem empty_variants_do_not_reach_lookup :
  (forall (g : list Entry),
      build_variants_lookup
        (map (fun e =>
                with_variants e
                  (filter (fun v => truthy v = true) (variants_no_normatives e)))
             g)
      = build_variants_lookup g)
  /\ (forall (e : Entry) (s : string) (lookup : gmap string LookupRecord),
         s <> "" ->
         add_entry lookup (with_variants e (csv_variants s))
         = add_entry lookup (with_variants e (normalize_variants (VStr s)))).
Proof.
  split.
  - intros g. unfold build_variants_lookup. generalize (∅ : gmap string LookupRecord).
    induction g as [|e g IH]; intros lookup; simpl; [done|].
    rewrite IH. f_equal.
    transitivity (add_entry lookup (with_variants e (variants_no_normatives e))).
    + apply add_entry_with_variants.
      rewrite list_filter_filter. apply list_filter_iff. tauto.
    + by destruct e.
  - intros e s lookup Hs. apply add_entry_with_variants.
    by rewrite csv_variants_nonempty_part, normalize_variants_nonempty_part.
Qed.

End EmptyVariants.

(** ** The final sort of the detector *)

Definition position_le (a b : DetectedCandidate) : Prop :=
  dc_position a <= dc_position b.

Definition position_lt (a b : DetectedCandidate) : Prop :=
  dc_position a < dc_position b.

Lemma insert_by_position_perm (c : DetectedCandidate) (l : list DetectedCandidate) :
  insert_by_position c l ≡ₚ c :: l.
Proof.
  induction l as [|d l IH]; simpl; [done|].
  destruct (dc_position c <? dc_position d)%nat; [done|].
  rewrite IH. apply Permutation_swap.
Qed.

Lemma insert_by_position_sorted (c : DetectedCandidate)
    (l : list DetectedCandidate) :
  StronglySorted position_le l ->
  StronglySorted position_le (insert_by_position c l).
Proof.
  induction 1 as [|d l Hl IH Hd]; simpl; [repeat constructor|].
  destruct (dc_position c <? dc_position d)%nat eqn:E.
  - apply Nat.ltb_lt in E. constructor; [by constructor|].
    constructor; [unfold position_le; lia|].
    eapply Forall_impl; [exact Hd|]. unfold position_le. simpl. lia.
  - apply Nat.ltb_ge in E. constructor; [exact IH|].
    rewrite insert_by_position_perm. by constructor.
Qed.

Lemma filter_none {A} (P : A -> Prop) `{forall x, Decision (P x)} (l : list A) :
  Forall (fun x => ~ P x) l -> filter P l = [].
Proof.
  induction 1 as [|x l Hx _ IH]; [done|]. by rewrite filter_cons_False.
Qed.

Lemma insert_by_position_filter (c : DetectedCandidate)
    (l : list DetectedCandidate) (p : nat) :
  StronglySorted position_le l ->
  filter (fun d => dc_position d = p) (insert_by_position c l)
  = filter (fun d => dc_position d = p) l
      ++ filter (fun d => dc_position d = p) [c].
Proof.
  induction 1 as [|d l Hl IH Hd]; simpl; [done|].
  destruct (dc_position c <? dc_position d)%nat eqn:E.
  - apply Nat.ltb_lt in E.
    destruct (decide (dc_position c = p)) as [Hc|Hc].
    + rewrite (filter_cons_True _ c) by done.
      assert (filter (fun d0 => dc_position d0 = p) (d :: l) = []) as ->.
      { apply filter_none. constructor; [lia|].
        eapply Forall_impl; [exact Hd|]. unfold position_le. simpl. lia. }
      by rewrite filter_cons_True, filter_nil.
    + rewrite (filter_cons_False _ c) by done.
      rewrite (filter_cons_False _ c []) by done.
      by rewrite filter_nil, app_nil_r.
  - destruct (decide (dc_position d = p)) as [Hp|Hp].
    + rewrite !(filter_cons_True _ d) by done. by rewrite IH.
    + rewrite !(filter_cons_False _ d) by done. exact IH.
Qed.

Lemma sort_fold_facts (l acc : list DetectedCandidate) :
  StronglySorted position_le acc ->
  let r := fold_left (fun sorted c => insert_by_position c sorted) l acc in
  r ≡ₚ acc ++ l
  /\ StronglySorted position_le r
  /\ forall p, filter (fun d => dc_position d = p) r
               = filter (fun d => dc_position d = p) (acc ++ l).
Proof.
  revert acc. induction l as [|c l IH]; intros acc Hacc; cbn zeta; simpl.
  - by rewrite app_nil_r.
  - destruct (IH (insert_by_position c acc)) as (P & S & F);
      [by apply insert_by_position_sorted|].
    cbn zeta in *. split; [|split; [exact S|]].
    + rewrite P, insert_by_position_perm.
      by rewrite (Permutation_middle acc l c).
    + intros p. rewrite F, !filter_app, insert_by_position_filter by done.
      rewrite <- app_assoc. f_equal.
      by rewrite <- filter_app.
Qed.

Lemma sort_by_position_facts (l : list DetectedCandidate) :
  sort_by_position l ≡ₚ l
  /\ StronglySorted position_le (sort_by_position l)
  /\ forall p, filter (fun d => dc_position d = p) (sort_by_position l)
               = filter (fun d => dc_position d = p) l.
Proof.
  unfold sort_by_position.
  destruct (sort_fold_facts l []) as (P & S & F); [constructor|].
  cbn zeta in *. done.
Qed.

(** X8.  The final sort returns the same candidates, in non-decreasing
    order of position, and keeps candidates with equal positions in the
    order they were emitted. *)
Theorem sort_by_position_stable (l : list DetectedCandidate) :
  sort_by_position l ≡ₚ l
  /\ StronglySorted position_le (sort_by_position l)
  /\ forall p, filter (fun d => dc_position d = p) (sort_by_position l)
               = filter (fun d => dc_position d = p) l.
Proof. apply sort_by_position_facts. Qed.

(** ** The whole scan *)

(** The candidate [c] reports the [n] tokens of [doc] from its position on. *)
Definition spans (doc : list Token) (c : DetectedCandidate) (n : nat) : Prop :=
  1 <= n <= 4
  /\ dc_position c + n <= length doc
  /\ dc_term c = ngram_text doc (dc_position c) n.

Lemma enumerate_from_elem {A} (l : list A) (k i : nat) (x : A) :
  (i, x) ∈ combine (seq k (length l)) l <-> k <= i /\ l !! (i - k) = Some x.
Proof.
  revert k. induction l as [|y l IH]; intros k; simpl.
  - split; [by intros ?%elem_of_nil|]. by intros [_ ?].
  - rewrite elem_of_cons, IH. split.
    + intros [[= -> ->]|[Hk Hl]].
      * split; [lia|]. by rewrite Nat.sub_diag.
      * split; [lia|]. by replace (i - k) with (S (i - S k)) by lia.
    + intros [Hk Hl]. destruct (decide (i = k)) as [->|Hne].
      * left. rewrite Nat.sub_diag in Hl. simpl in Hl. by injection Hl as ->.
      * right. split; [lia|].
        by replace (i - k) with (S (i - S k)) in Hl by lia.
Qed.

Lemma enumerate_elem {A} (l : list A) (i : nat) (x : A) :
  (i, x) ∈ enumerate l <-> l !! i = Some x.
Proof.
  unfold enumerate. rewrite enumerate_from_elem, Nat.sub_0_r. split.
  - by intros [_ ?].
  - intros ?. split; [lia|done].
Qed.

Lemma ngram_text_single (doc : list Token) (i : nat) (token : Token) :
  doc !! i = Some token -> ngram_text doc i 1 = tok_text token.
Proof.
  intros Hd. unfold ngram_text. by rewrite (drop_S _ _ _ Hd).
Qed.

Section ScanFacts.
Context {text : PyText}.
Variable lookup : gmap string LookupRecord.
Variable context_window : Z.
Variable doc : list Token.

#[local] Abbreviation st1 := (multiword_pass lookup context_window doc (∅, [])).
#[local] Abbreviation st2 := (token_pass lookup context_window doc st1).

(** A candidate that reports what the lookup holds under its matched form. *)
Definition from_lookup (c : DetectedCandidate) : Prop :=
  exists r,
    lookup !! dc_lemma c = Some r
    /\ dc_terme_recomanat c = lr_terme_recomanat r
    /\ dc_glossary_id c = lr_id r
    /\ dc_categoria c = lr_categoria r
    /\ dc_source c = "nlp".

Lemma single_hit_facts (detected : gset nat) (i : nat) (token : Token)
    (c : DetectedCandidate) :
  single_hit lookup context_window doc detected (i, token) = Some c ->
  dc_position c = i /\ (i ∉ detected) /\ dc_term c = tok_text token
  /\ from_lookup c.
Proof.
  unfold single_hit. simpl.
  destruct (bool_decide (i ∈ detected)) eqn:D; [done|].
  apply bool_decide_eq_false in D.
  destruct (tok_is_punct token || tok_is_space token); [done|].
  unfold single_match.
  destruct (lookup !! str_lower (tok_lemma token)) as [r|] eqn:L1.
  { intros [= <-]. repeat split; try done. by exists r. }
  destruct (lookup !! str_lower (tok_text token)) as [r|] eqn:L2; [|done].
  intros [= <-]. repeat split; try done. by exists r.
Qed.

Lemma single_hit_is_Some (detected : gset nat) (i : nat) (token : Token) :
  i ∉ detected -> tok_is_punct token = false -> tok_is_space token = false ->
  is_Some (single_match lookup token) ->
  is_Some (single_hit lookup context_window doc detected (i, token)).
Proof.
  intros Hd Hp Hs [[r f] Hm]. unfold single_hit. simpl.
  rewrite bool_decide_eq_false_2 by done. rewrite Hp, Hs, Hm. by eexists.
Qed.

Lemma single_positions (detected : gset nat) (l : list Token) (k : nat) :
  let ps := map dc_position
              (omap (single_hit lookup context_window doc detected)
                    (combine (seq k (length l)) l)) in
  NoDup ps /\ Forall (fun p => k <= p < k + length l /\ p ∉ detected) ps.
Proof.
  revert k. induction l as [|token l IH]; intros k; cbn zeta;
    cbn [length seq combine omap list_omap].
  - split; constructor.
  - destruct (IH (S k)) as [N F]. cbn zeta in *.
    destruct (single_hit lookup context_window doc detected (k, token))
      as [c|] eqn:Hit.
    + apply single_hit_facts in Hit as (Hp & Hd & _). simpl. rewrite Hp.
      split.
      * constructor; [|exact N]. rewrite Forall_forall in F.
        intros Hin. apply F in Hin as [? _]. lia.
      * constructor; [split; [lia|done]|].
        eapply Forall_impl; [exact F|]. simpl. intros p [? ?]. split; [lia|done].
    + split; [exact N|]. eapply Forall_impl; [exact F|]. simpl.
      intros p [? ?]. split; [lia|done].
Qed.

Lemma emitted_positions (ws : list (nat * nat)) (cands : list DetectedCandidate) :
  Forall2 (emitted lookup context_window doc) ws cands ->
  map dc_position cands = map fst ws.
Proof.
  induction 1 as [|w c ws cands (entry & _ & ->) _ IH]; simpl; [done|].
  by rewrite IH.
Qed.

Lemma starts_nodup (ws : list (nat * nat)) :
  Forall (fun w => 2 <= w.2 <= 4 /\ w.1 + w.2 <= length doc) ws ->
  (forall a b wa wb,
      a < b -> ws !! a = Some wa -> ws !! b = Some wb ->
      wb.2 <= wa.2 /\ windows_disjoint wa wb) ->
  NoDup (map fst ws).
Proof.
  intros S O. change (map fst ws) with (fst <$> ws). apply NoDup_alt.
  intros a b p Ha Hb. rewrite list_lookup_fmap in Ha, Hb.
  destruct (ws !! a) as [wa|] eqn:Ea; [|done].
  destruct (ws !! b) as [wb|] eqn:Eb; [|done].
  simpl in Ha, Hb. injection Ha as Ha. injection Hb as Hb.
  rewrite Forall_forall in S.
  pose proof (S wa (list_elem_of_lookup_2 _ _ _ Ea)) as [Sa _].
  pose proof (S wb (list_elem_of_lookup_2 _ _ _ Eb)) as [Sb _].
  destruct (Nat.lt_trichotomy a b) as [Hlt|[Heq|Hgt]]; [|done|].
  - destruct (O a b wa wb Hlt Ea Eb) as [_ D]. unfold windows_disjoint in D. lia.
  - destruct (O b a wb wa Hgt Eb Ea) as [_ D]. unfold windows_disjoint in D. lia.
Qed.

End ScanFacts.

Lemma sorted_nodup_strict (l : list DetectedCandidate) :
  StronglySorted position_le l -> NoDup (map dc_position l) ->
  StronglySorted position_lt l.
Proof.
  induction 1 as [|c l Hl IH Hc]; simpl; [constructor|].
  intros N. apply NoDup_cons in N as [Hout N].
  constructor; [by apply IH|].
  apply Forall_forall. intros d Hd. rewrite Forall_forall in Hc.
  pose proof (Hc d Hd) as Hle. unfold position_le in Hle. unfold position_lt.
  assert (dc_position c <> dc_position d); [|lia].
  intros E. apply Hout. rewrite E.
  apply list_elem_of_In, in_map, list_elem_of_In. exact Hd.
Qed.

Section ScanTheorems.
Context {text : PyText}.
Variable lookup : gmap string LookupRecord.
Variable context_window : Z.
Variable doc : list Token.

#[local] Abbreviation pass1 := (multiword_pass lookup context_window doc (∅, [])).
#[local] Abbreviation pass2 := (token_pass lookup context_window doc pass1).

Lemma pass2_candidates :
  pass2.2
  = pass1.2 ++ omap (single_hit lookup context_window doc pass1.1)
                    (enumerate doc).
Proof.
  destruct pass1 as [d c] eqn:E. simpl.
  by destruct (token_pass_spec lookup context_window doc d c) as [-> _].
Qed.

Lemma pass2_claimed (j : nat) :
  j ∈ pass2.1
  <-> j ∈ pass1.1
      \/ exists token,
           (j, token) ∈ enumerate doc
           /\ is_Some (single_hit lookup context_window doc pass1.1 (j, token)).
Proof.
  destruct pass1 as [d c] eqn:E. simpl.
  by destruct (token_pass_spec lookup context_window doc d c) as [_ ->].
Qed.

Lemma scan_perm :
  scan lookup context_window doc
  ≡ₚ pass1.2 ++ omap (single_hit lookup context_window doc pass1.1)
                     (enumerate doc).
Proof.
  unfold scan. cbn zeta. rewrite <- pass2_candidates.
  apply sort_by_position_facts.
Qed.

Lemma pass1_candidate_facts (c : DetectedCandidate) :
  c ∈ pass1.2 ->
  from_lookup lookup c
  /\ dc_position c ∈ pass1.1
  /\ exists n, 2 <= n <= 4 /\ spans doc c n.
Proof.
  destruct (multiword_pass_inv lookup context_window doc) as (ws & [E S O D]).
  intros Hc. apply list_elem_of_lookup in Hc as [a Ha].
  destruct (Forall2_lookup_r _ _ _ _ _ E Ha) as (w & Hw & entry & Hl & ->).
  rewrite Forall_forall in S.
  destruct (S w (list_elem_of_lookup_2 _ _ _ Hw)) as [Sn Sr].
  split; [|split].
  - exists entry. simpl. done.
  - simpl. apply D. exists w. split; [by eapply list_elem_of_lookup_2|].
    unfold in_window. lia.
  - exists w.2. split; [lia|]. unfold spans. simpl. repeat split; lia || done.
Qed.

Lemma pass1_claimed_covered (j : nat) :
  j ∈ pass1.1 ->
  exists c n,
    c ∈ pass1.2 /\ spans doc c n /\ 2 <= n
    /\ dc_position c <= j < dc_position c + n.
Proof.
  destruct (multiword_pass_inv lookup context_window doc) as (ws & [E S O D]).
  intros Hj. apply D in Hj as (w & Hw & Hin).
  apply list_elem_of_lookup in Hw as [a Ha].
  destruct (Forall2_lookup_l _ _ _ _ _ E Ha) as (c & Hc & entry & Hl & ->).
  rewrite Forall_forall in S.
  destruct (S w (list_elem_of_lookup_2 _ _ _ Ha)) as [Sn Sr].
  exists (mwe_candidate entry context_window doc w.1 w.2), w.2.
  split; [by eapply list_elem_of_lookup_2|].
  unfold spans, in_window in *. simpl. repeat split; lia || done.
Qed.

Lemma positions_nodup :
  NoDup (map dc_position
           (pass1.2 ++ omap (single_hit lookup context_window doc pass1.1)
                            (enumerate doc)))
  /\ Forall (fun c => dc_position c < length doc)
            (pass1.2 ++ omap (single_hit lookup context_window doc pass1.1)
                             (enumerate doc)).
Proof.
  destruct (single_positions lookup context_window doc pass1.1 doc 0) as [N2 F2].
  cbn zeta in N2, F2. fold (enumerate doc) in N2, F2.
  destruct (multiword_pass_inv lookup context_window doc) as (ws & [E S O D]).
  split.
  - rewrite map_app. apply NoDup_app. split; [|split; [|exact N2]].
    + rewrite (emitted_positions _ _ _ ws) by exact E.
      by eapply starts_nodup.
    + intros p Hp Hp2. rewrite Forall_forall in F2.
      destruct (F2 p Hp2) as [_ Hout]. apply Hout.
      apply list_elem_of_In, in_map_iff in Hp as (c & <- & Hc).
      apply list_elem_of_In in Hc. by apply pass1_candidate_facts.
  - apply Forall_app. split.
    + apply Forall_forall. intros c Hc.
      apply pass1_candidate_facts in Hc as (_ & _ & n & Hn & _ & Hr & _). lia.
    + apply Forall_forall. intros c Hc.
      rewrite Forall_forall in F2.
      assert (dc_position c ∈ map dc_position
                (omap (single_hit lookup context_window doc pass1.1)
                      (enumerate doc))) as Hp.
      { by apply list_elem_of_In, in_map, list_elem_of_In. }
      destruct (F2 _ Hp) as [? _]. lia.
Qed.

(** X9.  The detector reports every token position at most once: the
    positions of the returned candidates increase strictly, each is a
    position of the text, and so there are at most as many candidates as
    tokens. *)
Theorem scan_positions_increase :
  StronglySorted position_lt (scan lookup context_window doc)
  /\ Forall (fun c => dc_position c < length doc)
            (scan lookup context_window doc)
  /\ length (scan lookup context_window doc) <= length doc.
Proof.
  destruct positions_nodup as [N F].
  pose proof scan_perm as P.
  assert (NoDup (map dc_position (scan lookup context_window doc))) as Ns.
  { eapply NoDup_Permutation_proper; [|exact N].
    by apply Permutation_map. }
  assert (Forall (fun c => dc_position c < length doc)
                 (scan lookup context_window doc)) as Fs.
  { by rewrite P. }
  split; [|split; [exact Fs|]].
  - apply sorted_nodup_strict; [|exact Ns]. apply sort_by_position_facts.
  - transitivity (length (seq 0 (length doc))); [|by rewrite length_seq].
    rewrite <- (length_map dc_position (scan lookup context_window doc)).
    apply NoDup_incl_length; [by apply NoDup_ListNoDup|].
    intros p Hp. apply in_map_iff in Hp as (c & <- & Hc).
    apply in_seq. rewrite Forall_forall in Fs.
    apply list_elem_of_In in Hc. apply Fs in Hc. lia.
Qed.

End ScanTheorems.

Section ScanCoverage.
Context {text : PyText}.
Variable lookup : gmap string LookupRecord.
Variable context_window : Z.
Variable doc : list Token.

#[local] Abbreviation first_pass :=
  (multiword_pass lookup context_window doc (∅, [])).

Lemma scan_elem (c : DetectedCandidate) :
  c ∈ scan lookup context_window doc
  <-> c ∈ first_pass.2
      \/ exists i token,
           doc !! i = Some token
           /\ single_hit lookup context_window doc first_pass.1 (i, token)
              = Some c.
Proof.
  rewrite (scan_perm lookup context_window doc), elem_of_app.
  rewrite list_elem_of_omap. split.
  - intros [?|([i token] & Hin & Hit)]; [by left|]. right.
    exists i, token. split; [by apply enumerate_elem|done].
  - intros [?|(i & token & Hd & Hit)]; [by left|]. right.
    exists (i, token). split; [by apply enumerate_elem|done].
Qed.

(** X10.  The detector never invents a match: every returned candidate
    carries the id, recommended term and category of the record the lookup
    holds under the candidate's matched form, and its term is the text of
    one to four consecutive tokens starting at its position. *)
Theorem scan_reports_lookup_records :
  Forall (fun c => from_lookup lookup c /\ exists n, spans doc c n)
         (scan lookup context_window doc).
Proof.
  apply Forall_forall. intros c Hc. apply scan_elem in Hc as [Hc|Hc].
  - apply pass1_candidate_facts in Hc as (Hf & _ & n & Hn & Hs).
    split; [exact Hf|]. by exists n.
  - destruct Hc as (i & token & Hd & Hit).
    apply single_hit_facts in Hit as (Hp & _ & Ht & Hf).
    split; [exact Hf|]. exists 1. unfold spans. rewrite Hp.
    apply lookup_lt_Some in Hd as Hlt.
    split; [lia|]. split; [lia|]. by rewrite (ngram_text_single _ _ _ Hd).
Qed.

(** X11.  No matching token is lost: a token that is neither punctuation
    nor whitespace and whose lowercased lemma or text is a key of the
    lookup lies inside a returned candidate. *)
Theorem scan_covers_matching_tokens (i : nat) (token : Token) :
  doc !! i = Some token ->
  tok_is_punct token = false -> tok_is_space token = false ->
  is_Some (single_match lookup token) ->
  exists c n,
    c ∈ scan lookup context_window doc
    /\ spans doc c n
    /\ dc_position c <= i < dc_position c + n.
Proof.
  intros Hd Hp Hs Hm.
  destruct (decide (i ∈ first_pass.1)) as [Hin|Hout].
  - apply pass1_claimed_covered in Hin as (c & n & Hc & Hsp & _ & Hi).
    exists c, n. split; [apply scan_elem; by left|done].
  - destruct (single_hit_is_Some lookup context_window doc first_pass.1
                i token Hout Hp Hs Hm) as [c Hit].
    exists c, 1. split; [apply scan_elem; right; by exists i, token|].
    apply single_hit_facts in Hit as (Hpos & _ & Ht & _).
    apply lookup_lt_Some in Hd as Hlt. unfold spans. rewrite Hpos.
    split; [|lia].
    split; [lia|]. split; [lia|]. by rewrite (ngram_text_single _ _ _ Hd).
Qed.

(** X12.  No matching expression is lost either: a window of two to four
    tokens whose lowercased text is a key of the lookup shares a token
    with a returned multi-word candidate. *)
Theorem scan_covers_matching_windows (i n : nat) :
  2 <= n <= 4 -> i + n <= length doc ->
  is_Some (lookup !! str_lower (ngram_text doc i n)) ->
  exists c m j,
    c ∈ scan lookup context_window doc
    /\ spans doc c m /\ 2 <= m
    /\ i <= j < i + n
    /\ dc_position c <= j < dc_position c + m.
Proof.
  intros Hn Hi Hk.
  destruct (multiword_pass_settles lookup context_window doc n i (∅, [])
              Hn Hi Hk) as (j & Hj & Hin).
  apply pass1_claimed_covered in Hin as (c & m & Hc & Hsp & Hm & Hcov).
  exists c, m, j. split; [apply scan_elem; by left|done].
Qed.

End ScanCoverage.

(** The tokens of "Tot Fet i fet i fet ." under the table lemmatizer. *)
Definition fet_doc : list Token :=
  map table_token (split_on " "%char "Tot Fet i fet i fet .").

Lemma scan_covers_matching_tokens_witness :
  exists c n,
    c ∈ scan (text := ascii_text) (lookup_of fet_glossary) 3 fet_doc
    /\ spans fet_doc c n
    /\ dc_position c <= 5 < dc_position c + n.
Proof.
  apply (scan_covers_matching_tokens (text := ascii_text)
           (lookup_of fet_glossary) 3 fet_doc 5 (table_token "fet")).
  - reflexivity.
  - reflexivity.
  - reflexivity.
  - vm_compute. by eexists.
Defined.

Lemma scan_covers_matching_windows_witness :
  exists c m j,
    c ∈ scan (text := ascii_text) (lookup_of fet_glossary) 3 fet_doc
    /\ spans fet_doc c m /\ 2 <= m
    /\ 3 <= j < 3 + 3
    /\ dc_position c <= j < dc_position c + m.
Proof.
  apply (scan_covers_matching_windows (text := ascii_text)
           (lookup_of fet_glossary) 3 fet_doc 3 3).
  - lia.
  - vm_compute. lia.
  - vm_compute. by eexists.
Defined.

(** ** Shape of a search answer *)

Lemma enumerate_snd {A} (l : list A) : map snd (enumerate l) = l.
Proof.
  unfold enumerate. generalize 0. induction l as [|x l IH]; intros k; simpl;
    [done|]. by rewrite IH.
Qed.

Lemma neighbor_matches_facts glossari k threshold idx score ms :
  neighbor_matches glossari k threshold idx score = Some ms ->
  length ms <= k
  /\ Forall (fun m =>
               (threshold <= mr_similitud m)%Q
               /\ exists entry, entry ∈ glossari
                                /\ m = match_result entry (mr_similitud m))
            ms.
Proof.
  rewrite neighbor_matches_spec. intros Hm. apply mapM_Some in Hm.
  split.
  - rewrite <- (Forall2_length _ _ _ Hm).
    etrans; [apply length_filter|]. by rewrite length_seq.
  - apply Forall_forall. intros m Hin.
    apply list_elem_of_lookup in Hin as [a Ha].
    destruct (Forall2_lookup_r _ _ _ _ _ Hm Ha) as (j & Hj & Hr).
    apply list_elem_of_lookup_2, list_elem_of_filter in Hj as [Hk _].
    apply kept_iff in Hk as [_ Hs]. unfold resolve in Hr.
    destruct (glossari !! Z.to_nat (idx j)) as [entry|] eqn:L; [|done].
    simpl in Hr. injection Hr as <-. simpl. split; [exact Hs|].
    exists entry. split; [by eapply list_elem_of_lookup_2|done].
Qed.

Section SearchShape.
Context {vectors : Vectors}.



End SearchShape.



(** ** The context window of a candidate *)

Lemma window_slice {A} (l : list A) (a i n c : nat) :
  a <= i -> i + n <= length l ->
  take (Nat.min (length l) (i + n + c) - a) (drop a l)
  = drop a (take i l) ++ take n (drop i l) ++ take c (drop (i + n) l).
Proof.
  intros Ha Hi.
  assert (l = take i l ++ take n (drop i l) ++ drop (i + n) l) as Hl.
  { rewrite <- (drop_drop l n i), (take_drop n (drop i l)).
    by rewrite take_drop. }
  assert (length (take i l) = i) as Li by (rewrite length_take; lia).
  assert (length (take n (drop i l)) = n) as Ln
    by (rewrite length_take, length_drop; lia).
  assert (length (drop (i + n) l) = length l - (i + n)) as Ld
    by apply length_drop.
  rewrite Hl at 2. rewrite drop_app_le by lia.
  rewrite take_app_ge by (rewrite length_drop; lia).
  f_equal. rewrite length_drop, Li.
  rewrite take_app_ge by lia. f_equal. rewrite Ln.
  destruct (decide (c <= length l - (i + n))) as [Hc|Hc].
  - f_equal. lia.
  - rewrite !take_ge by lia. done.
Qed.

(** X15.  With a non-negative context width the context of a candidate is
    made of the at most [context_window] tokens before the matched tokens,
    the matched tokens themselves, and the at most [context_window] tokens
    after them, joined by single blanks; with width 0 it is the matched
    text alone. *)
Theorem context_text_surrounds_match (doc : list Token) (i n : nat)
    (context_window : Z) :
  (0 <= context_window)%Z -> i + n <= length doc ->
  context_text doc i n context_window
  = join " "
      (map tok_text
           (drop (i - Z.to_nat context_window) (take i doc)
              ++ take n (drop i doc)
              ++ take (Z.to_nat context_window) (drop (i + n) doc)))
  /\ (context_window = 0%Z -> context_text doc i n context_window
                              = ngram_text doc i n).
Proof.
  intros Hc Hi.
  assert (context_text doc i n context_window
          = join " "
              (map tok_text
                 (drop (i - Z.to_nat context_window) (take i doc)
                    ++ take n (drop i doc)
                    ++ take (Z.to_nat context_window) (drop (i + n) doc))))
    as E.
  { unfold context_text, py_slice, clamp_index.
    rewrite <- (window_slice doc (i - Z.to_nat context_window) i n
                  (Z.to_nat context_window)) by lia.
    do 2 f_equal.
    assert ((Z.max 0 (Z.of_nat i - context_window) <? 0)%Z = false) as ->
      by lia.
    assert ((Z.min (Z.of_nat (length doc))
               (Z.of_nat i + Z.of_nat n + context_window) <? 0)%Z = false) as ->
      by lia.
    f_equal; [lia|f_equal; lia]. }
  split; [exact E|].
  intros ->. rewrite E. unfold ngram_text. simpl.
  rewrite Nat.sub_0_r, drop_ge by (rewrite length_take; lia).
  by rewrite take_0, app_nil_r.
Qed.

Lemma context_text_surrounds_match_witness :
  context_text fet_doc 3 1 2
  = join " "
      (map tok_text
           (drop (3 - Z.to_nat 2) (take 3 fet_doc)
              ++ take 1 (drop 3 fet_doc)
              ++ take (Z.to_nat 2) (drop (3 + 1) fet_doc)))
  /\ (2%Z = 0%Z -> context_text fet_doc 3 1 2 = ngram_text fet_doc 3 1).
Proof.
  apply (context_text_surrounds_match fet_doc 3 1 2).
  - lia.
  - vm_compute. lia.
Defined.

(** ** The builder's report and files *)

Section BuilderFacts.
Context {vectors : Vectors} {text : PyText}.

Lemma build_success_facts (env : Env) (disk disk' : Disk)
    (glossary_data : list RawEntry) (report : BuildReport) :
  build_index_from_data env disk glossary_data = (disk', BuildSuccess report) ->
  let prepared := prepare_glossary_for_vectorization glossary_data in
  index_file disk' = Some (embed_and_index env prepared.2).1
  /\ metadata_file disk' = Some prepared.1
  /\ glossaryEntries report = length glossary_data
  /\ vectorizedEntries report = length prepared.1
  /\ length prepared.2 = vectorizedEntries report
  /\ 1 <= vectorizedEntries report <= glossaryEntries report
  /\ vectorDimensions report = (embed_and_index env prepared.2).2.
Proof.
  unfold build_index_from_data. cbn zeta.
  pose proof (prepare_spec glossary_data) as P.
  destruct (prepare_glossary_for_vectorization glossary_data) as [g t].
  injection P as Pg Pt. simpl.
  destruct (length g =? 0)%nat eqn:L; [done|]. apply Nat.eqb_neq in L.
  destruct (fault env LoadAndEncode); [done|].
  destruct (embed_and_index env t) as [ix dimension].
  destruct (fault env WriteIndex); [done|].
  destruct (fault env DumpMetadata); [done|].
  destruct (fault env StatIndex); [done|].
  intros [= <- <-]. simpl. repeat split; try done.
  - by rewrite Pg, Pt, !length_map.
  - lia.
  - rewrite Pg, length_map. apply length_filter.
Qed.

(** X16.  A build that reports success has written both files, the index
    over the embedding texts and the normalized entries, and its report
    counts the submitted entries and the entries kept: at least one, at
    most as many as submitted, and as many as texts were embedded. *)
Theorem build_success_report (env : Env) (disk disk' : Disk)
    (glossary_data : list RawEntry) (report : BuildReport) :
  build_index_from_data env disk glossary_data = (disk', BuildSuccess report) ->
  let prepared := prepare_glossary_for_vectorization glossary_data in
  index_file disk' = Some (embed_and_index env prepared.2).1
  /\ metadata_file disk' = Some prepared.1
  /\ glossaryEntries report = length glossary_data
  /\ vectorizedEntries report = length prepared.1
  /\ length prepared.2 = vectorizedEntries report
  /\ 1 <= vectorizedEntries report <= glossaryEntries report
  /\ vectorDimensions report = (embed_and_index env prepared.2).2.
Proof. apply build_success_facts. Qed.


Lemma vectorize_success_build (env : Env) (g g' : Globals)
    (disk disk' : Disk) (glossary : list GlossaryTermInput)
    (r : VectorizeResult) :
  vectorize env g disk glossary = (g', disk', Return r) ->
  build_index_from_data env disk (map model_dump glossary)
  = (disk', BuildSuccess (vr_report r)).
Proof.
  unfold vectorize. destruct glossary as [|t ts]; [done|].
  destruct (build_index_from_data env disk (map model_dump (t :: ts)))
    as [d result].
  destruct result as [report|e]; [|done].
  destruct (read_index env d); [done|].
  destruct (load_metadata env d); [done|].
  by intros [= _ <- <-].
Qed.

(** X18.  After a rebuild that returns success the canonical store is not
    empty, so with an embedding model loaded [search] no longer answers
    503 and [/health] reports the service ready for search; the counts of
    the answer are the number of submitted entries and the size of the
    published store. *)
Theorem rebuild_makes_search_ready (env : Env) (g g' : Globals)
    (disk disk' : Disk) (glossary : list GlossaryTermInput)
    (r : VectorizeResult) :
  vectorize env g disk glossary = (g', disk', Return r) ->
  is_Some (model g) ->
  (forall request detail, search g' request <> Raise 503 detail)
  /\ h_ready_for_search (health g') = true
  /\ h_glossary_entries (health g') = vectorizedEntries (vr_report r)
  /\ 1 <= vectorizedEntries (vr_report r) <= glossaryEntries (vr_report r)
  /\ glossaryEntries (vr_report r) = length glossary.
Proof.
  intros Hv [m Hm].
  destruct (vectorize_success env g g' disk disk' glossary r Hv)
    as (ix & _ & _ & -> & _).
  apply vectorize_success_build, build_success_facts in Hv. cbn zeta in Hv.
  destruct Hv as (_ & _ & B1 & B2 & _ & B3 & _).
  rewrite length_map in B1.
  destruct (prepare_glossary_for_vectorization (map model_dump glossary))
    as [entries texts].
  simpl in *.
  split; [|split; [|split; [|split]]]; try done.
  - intros request detail. unfold search. simpl. rewrite Hm.
    destruct entries as [|e es]; [simpl in B2; lia|].
    destruct (index_search ix _ _) as [distances indices].
    by destruct (fold_left _ _ _).
  - unfold health. simpl. by rewrite Hm.
Qed.

End BuilderFacts.

(** A rebuild in which [pickle.dump] raises. *)
Definition dump_fault_env (rows : list (list (Q * Z)))
  : Env (vectors := unit_vectors) := {|
  fault := fun step =>
    match step with
    | DumpMetadata => Some "No space left on device"
    | _ => None
    end;
  embed_and_index := fun _ => (table_index rows, 768);
  processing_time := "0.1s";
  size_str := "3.0 KB"
|}.

Definition two_entries_report : BuildReport := {|
  glossaryEntries := 2;
  vectorizedEntries := 2;
  embeddingModel := MODEL_NAME;
  vectorDimensions := 768;
  indexType := "FAISS FlatIP";
  processingTime := "0.1s";
  indexSize := "3.0 KB"
|}.

Lemma build_success_report_witness :
  let prepared :=
    prepare_glossary_for_vectorization (text := ascii_text)
      (map model_dump two_entries) in
  let disk' :=
    (build_index_from_data (text := ascii_text) (quiet_env [[(9 # 10, 1%Z)]])
       (serving_disk [[(9 # 10, 0%Z)]] formar_glossary)
       (map model_dump two_entries)).1 in
  index_file disk'
  = Some (embed_and_index (quiet_env [[(9 # 10, 1%Z)]]) prepared.2).1
  /\ metadata_file disk' = Some prepared.1
  /\ glossaryEntries two_entries_report = length (map model_dump two_entries)
  /\ vectorizedEntries two_entries_report = length prepared.1
  /\ length prepared.2 = vectorizedEntries two_entries_report
  /\ 1 <= vectorizedEntries two_entries_report
       <= glossaryEntries two_entries_report
  /\ vectorDimensions two_entries_report
     = (embed_and_index (quiet_env [[(9 # 10, 1%Z)]]) prepared.2).2.
Proof.
  cbn zeta.
  apply (build_success_report (text := ascii_text)
           (quiet_env [[(9 # 10, 1%Z)]])
           (serving_disk [[(9 # 10, 0%Z)]] formar_glossary)).
  reflexivity.
Defined.


Lemma rebuild_makes_search_ready_witness :
  let g' :=
    (vectorize (text := ascii_text) (quiet_env [[(9 # 10, 1%Z)]])
       (serving_globals [[(9 # 10, 0%Z)]] formar_glossary)
       (serving_disk [[(9 # 10, 0%Z)]] formar_glossary) two_entries).1.1 in
  let r := {| vr_success := true; vr_report := two_entries_report;
              vr_error := None |} in
  (forall request detail, search g' request <> Raise 503 detail)
  /\ h_ready_for_search (health g') = true
  /\ h_glossary_entries (health g')
     = vectorizedEntries (vr_report r)
  /\ 1 <= vectorizedEntries (vr_report r) <= glossaryEntries (vr_report r)
  /\ glossaryEntries (vr_report r) = length two_entries.
Proof.
  cbn zeta.
  eapply (rebuild_makes_search_ready (text := ascii_text)
            (quiet_env [[(9 # 10, 1%Z)]])
            (serving_globals [[(9 # 10, 0%Z)]] formar_glossary) _
            (serving_disk [[(9 # 10, 0%Z)]] formar_glossary)).
  - reflexivity.
  - by eexists.
Defined.

(** ** The embedding texts *)

Lemma append_empty_r (s : string) : s +:+ "" = s.
Proof.
  induction s as [|c s IH]; [done|].
  change (String c (s +:+ "") = String c s). by rewrite IH.
Qed.

Lemma join_head (sep x : string) (rest : list string) :
  exists tail, join sep (x :: rest) = x +:+ tail.
Proof.
  destruct rest as [|y rest]; simpl.
  - exists "". by rewrite append_empty_r.
  - by eexists.
Qed.

Lemma append_nonempty (s tail : string) : s <> "" -> s +:+ tail <> "".
Proof.
  destruct s as [|c s]; [done|]. intros _.
  change (String c (s +:+ tail) <> ""). done.
Qed.

Lemma Forall2_map_same {A B C} (P : B -> C -> Prop) (f : A -> B) (h : A -> C)
    (l : list A) :
  Forall (fun x => P (f x) (h x)) l -> Forall2 P (map f l) (map h l).
Proof. induction 1; simpl; by constructor. Qed.

(** X19.  What is embedded for an entry always begins with the entry's
    recommended term, whichever builder produced it; no embedding text is
    empty. *)
Theorem embedding_text_starts_with_term (text : PyText)
    (glossary_data : list RawEntry) (df : list CsvRow) :
  (let r := prepare_glossary_for_vectorization glossary_data in
   Forall2 (fun e t => (exists tail, t = terme_recomanat e +:+ tail) /\ t <> "")
           r.1 r.2)
  /\ (let r := build_index_rows df in
      Forall2 (fun e t => (exists tail, t = terme_recomanat e +:+ tail) /\ t <> "")
              r.1 r.2).
Proof.
  cbn zeta. rewrite prepare_spec, build_index_rows_spec. cbn [fst snd]. split.
  - apply Forall2_map_same, Forall_forall. intros raw Hraw.
    apply list_elem_of_filter in Hraw as [Hu _].
    assert (exists rest,
              text_parts_of raw = str_strip (raw_terme_recomanat raw) :: rest)
      as [rest ->] by (by eexists).
    destruct (join_head " " (str_strip (raw_terme_recomanat raw)) rest)
      as [tail Ht].
    change (terme_recomanat (metadata_of raw))
      with (str_strip (raw_terme_recomanat raw)).
    split; [by exists tail|].
    rewrite Ht. by apply append_nonempty.
  - apply Forall2_map_same, Forall_forall. intros row Hrow.
    apply list_elem_of_filter in Hrow as [Hu _].
    change (terme_recomanat (csv_entrada row))
      with (str_strip (py_str (col_terme_recomanat row))).
    unfold csv_text. cbn zeta. split; [by eexists|].
    by apply append_nonempty.
Qed.

(** ** Starting without a glossary *)

Section ColdStart.
Context {vectors : Vectors} {text : PyText}.

(** X20.  A service started while the metadata file is missing refuses
    every search, every detection and every lookup reload with 503,
    whether or not an index file was found, and reports itself not ready
    with zero entries and zero variants. *)
Theorem start_without_metadata_refuses (boot : Boot) (env : Env) (disk : Disk)
    (g : Globals) (sreq : SearchRequest) (dreq : DetectCandidatesRequest) :
  load_models boot env disk = Return g ->
  metadata_file disk = None ->
  search g sreq
  = Raise 503
      "Índex no disponible. Utilitzeu l'endpoint /vectorize per crear l'índex primer."
  /\ (exists detail, detect_candidates g dreq = Raise 503 detail)
  /\ reload_variants g
     = (g, Raise 503 "No glossari loaded. Run vectorization first.")
  /\ h_ready_for_search (health g) = false
  /\ h_ready_for_nlp_detection (health g) = false
  /\ h_glossary_entries (health g) = 0
  /\ h_variants_count (health g) = 0.
Proof.
  intros Hl Hm.
  destruct (load_models_facts boot env disk g Hl)
    as (_ & [m Hmodel] & _ & _ & Hg & Hv).
  rewrite Hm in Hg, Hv. simpl in Hv.
  destruct g as [gm gi gg gn gv]. simpl in *. subst.
  unfold search, detect_candidates, reload_variants, health. simpl.
  split; [by destruct gi|].
  split; [destruct gn; by eexists|].
  split; [done|].
  split; [by rewrite andb_false_r|].
  split; [by rewrite andb_false_r|done].
Qed.

End ColdStart.

Lemma start_without_metadata_refuses_witness :
  let g : Globals (vectors := unit_vectors) :=
    {| model := Some unit_model; index := Some (table_index []);
       glossari := None; nlp_model := Some table_nlp;
       variants_lookup := None |} in
  search g {| sq_candidates := ["computadora"]; sq_k := 1;
              sq_threshold := 4 # 5 |}
  = Raise 503
      "Índex no disponible. Utilitzeu l'endpoint /vectorize per crear l'índex primer."
  /\ (exists detail,
         detect_candidates (text := ascii_text) g
           {| dq_text := "fet i fet"; dq_context_window := 3 |}
         = Raise 503 detail)
  /\ reload_variants (text := ascii_text) g
     = (g, Raise 503 "No glossari loaded. Run vectorization first.")
  /\ h_ready_for_search (health g) = false
  /\ h_ready_for_nlp_detection (health g) = false
  /\ h_glossary_entries (health g) = 0
  /\ h_variants_count (health g) = 0.
Proof.
  cbn zeta.
  apply (start_without_metadata_refuses (text := ascii_text) table_boot
           (quiet_env [])
           {| index_file := Some (table_index []); metadata_file := None |}).
  - reflexivity.
  - reflexivity.
Defined.
